(** * Phase-2 backend: token verification, ownership gate and task store

    A shallow embedding of the FastAPI backend under
    [Phase-2/backend/app]:

    - [core/auth.py]: the JWKS cache and [verify_token];
    - [models/task.py]: the [Task] table row and the request schemas;
    - [repositories/task_repository.py]: the owner-scoped queries;
    - [services/task_service.py]: the business rules;
    - [api/v1/tasks.py]: the five route handlers with their ownership check.

    Python exceptions become a [result] type, the module-level cache and
    the database session become explicit state threaded by a small
    state-and-exception monad, and dictionaries become [gmap]s or
    association lists. *)

From Stdlib Require Import ZArith Ascii String.
From stdpp Require Import base option list sorting gmap strings.

Local Open Scope Z_scope.

(** ** Python string helpers *)

(** A string is a sequence of characters with code points below 256.
    [str.isspace] on that range: tab, line feed, vertical tab, form
    feed, carriage return, the four separators 0x1c-0x1f, the space,
    next line (0x85) and the no-break space (0xa0). *)
Definition isspace (c : ascii) : bool :=
  let n := N_of_ascii c in
  (((9 <=? n) && (n <=? 13)) || ((28 <=? n) && (n <=? 32))
   || (n =? 133) || (n =? 160))%N.

Fixpoint lstrip (s : string) : string :=
  match s with
  | String c s' => if isspace c then lstrip s' else s
  | EmptyString => EmptyString
  end.

Definition rstrip (s : string) : string :=
  String.rev (lstrip (String.rev s)).

(** [s.strip()] *)
Definition strip (s : string) : string := rstrip (lstrip s).

(** [len(s)] *)
Definition len (s : string) : Z := Z.of_nat (String.length s).

(** [s.startswith(p)] *)
Fixpoint startswith (p s : string) : bool :=
  match p, s with
  | EmptyString, _ => true
  | String a p', String b s' => if decide (a = b) then startswith p' s' else false
  | String _ _, EmptyString => false
  end.

(** [s[n:]] *)
Fixpoint slice_from (n : nat) (s : string) : string :=
  match n, s with
  | O, _ => s
  | S n', String _ s' => slice_from n' s'
  | S _, EmptyString => EmptyString
  end.

(** Truthiness of an [Optional[str]]: [None] and the empty string are
    falsy. *)
Definition truthy (v : option string) : bool :=
  match v with
  | Some s => negb (bool_decide (s = ""))
  | None => false
  end.

(** ** Exceptions and the state-and-exception monad *)

(** The subclasses of [jwt.InvalidTokenError] that PyJWT raises while
    decoding. [ExpiredSignatureError] is one of them; the [except]
    clauses of [verify_token] test for it first. *)
Inductive jwt_error :=
| ExpiredSignatureError
| DecodeError
| InvalidAlgorithmError
| InvalidSignatureError
| ImmatureSignatureError.

Inductive exn :=
| HTTPException (status_code : Z) (detail : string)
| InvalidTokenError (e : jwt_error)
| HTTPError                                   (* httpx.HTTPError *)
| SQLAlchemyError
| ValidationError                             (* pydantic, raised in a handler *)
| KeyError
| RequestValidationError (fields : list string)
| JSONDecodeError                             (* json, from response.json() *)
| AttributeError
| TypeError
| ValueError
| InvalidKeyError.                            (* jwt, not an InvalidTokenError *)

Inductive result (A : Type) :=
| Ok (a : A)
| Raise (e : exn).
Arguments Ok {A} a.
Arguments Raise {A} e.

(** A computation over a state [Σ] that returns or raises; the state
    reached when an exception is raised is kept, as a committed write
    stays committed when a later statement raises. *)
Definition M (Σ A : Type) : Type := Σ → result A * Σ.

Definition raise {Σ A} (e : exn) : M Σ A := λ σ, (Raise e, σ).

#[global] Instance M_ret {Σ} : MRet (M Σ) := λ A a σ, (Ok a, σ).

#[global] Instance M_bind {Σ} : MBind (M Σ) := λ A B k m σ,
  match m σ with
  | (Ok a, σ') => k a σ'
  | (Raise e, σ') => (Raise e, σ')
  end.

(** [try: m  except ...: handler e] *)
Definition try_except {Σ A} (m : M Σ A) (handler : exn → M Σ A) : M Σ A :=
  λ σ, match m σ with
       | (Ok a, σ') => (Ok a, σ')
       | (Raise e, σ') => handler e σ'
       end.

Definition get {Σ} : M Σ Σ := λ σ, (Ok σ, σ).
Definition modify {Σ} (f : Σ → Σ) : M Σ unit := λ σ, (Ok tt, f σ).

(** [if cond: raise e] *)
Definition raise_if {Σ} (cond : bool) (e : exn) : M Σ unit :=
  if cond then raise e else mret tt.

Definition is_HTTPException (e : exn) : bool :=
  match e with HTTPException _ _ => true | _ => false end.

(** ** [models/task.py] *)

(** A UUID is a 128-bit number; timestamps are naive UTC datetimes,
    counted in microseconds. *)
Definition UUID : Type := N.
Definition datetime : Type := Z.

(** A JSON request body: an object whose members are strings or [null].
    A missing key is an absent member, [Some None] is [null]. *)
Abbreviation json := (gmap string (option string)).

(** The [Task] table. [id] is the primary key. *)
Module Task.
Record t := mk {
  id : UUID;
  user_id : string;
  title : string;
  description : option string;
  status : string;
  priority : option string;
  created_at : datetime;
  updated_at : datetime
}.

#[global] Instance Task_eq_dec : EqDecision t.
Proof. solve_decision. Defined.
End Task.

(** Outcome of validating a request body against a schema: the validated
    object, or the names of the fields that failed. *)
Inductive validated (A : Type) :=
| Valid (a : A)
| Invalid (fields : list string).
Arguments Valid {A} a.
Arguments Invalid {A} fields.

(** Collects the failing field of one member: [None] is a raised
    [ValueError] or a violated [Field] constraint. *)
Definition field_error {A} (name : string) (v : option A) : list string :=
  match v with Some _ => [] | None => [name] end.

Module TaskCreateRequest.
Record t := mk {
  title : string;
  description : option string;
  priority : option string
}.

Definition validate_title (v : string) : option string :=
  let v := strip v in
  if bool_decide (v = "") then None else Some v.

Definition validate_description (v : option string) : option string :=
  match v with
  | Some v => let v := strip v in if bool_decide (v = "") then None else Some v
  | None => None
  end.

Definition validate_priority (v : option string) : option (option string) :=
  match v with
  | Some p => if bool_decide (p ∉ ["low"; "medium"; "high"]) then None else Some v
  | None => Some v
  end.

(** [title: str = Field(..., min_length=1, max_length=500)], then the
    field validator. *)
Definition field_title (m : option (option string)) : option string :=
  match m with
  | Some (Some s) =>
      if (1 <=? len s) && (len s <=? 500) then validate_title s else None
  | _ => None
  end.

(** [description: Optional[str] = Field(None, max_length=10000)]; a
    default is not passed through the validator. *)
Definition field_description (m : option (option string))
  : option (option string) :=
  match m with
  | None => Some None
  | Some None => Some (validate_description None)
  | Some (Some s) =>
      if len s <=? 10000 then Some (validate_description (Some s)) else None
  end.

(** [priority: Optional[str] = Field("medium")] *)
Definition field_priority (m : option (option string))
  : option (option string) :=
  match m with
  | None => Some (Some "medium")
  | Some v => validate_priority v
  end.

Definition model_validate (body : json) : validated t :=
  match field_title (body !! "title"),
        field_description (body !! "description"),
        field_priority (body !! "priority") with
  | Some ti, Some de, Some pr => Valid (mk ti de pr)
  | ti, de, pr =>
      Invalid (field_error "title" ti ++ field_error "description" de
               ++ field_error "priority" pr)
  end.
End TaskCreateRequest.

Module TaskUpdateRequest.
Record t := mk {
  title : option string;
  description : option string;
  status : option string;
  priority : option string
}.

Definition validate_title (v : option string) : option (option string) :=
  match v with
  | Some v =>
      let v := strip v in
      if bool_decide (v = "") then None else Some (Some v)
  | None => Some None
  end.

Definition validate_status (v : option string) : option (option string) :=
  match v with
  | Some s =>
      if bool_decide (s ∉ ["pending"; "in-progress"; "completed"])
      then None else Some v
  | None => Some v
  end.

Definition validate_priority (v : option string) : option (option string) :=
  match v with
  | Some p => if bool_decide (p ∉ ["low"; "medium"; "high"]) then None else Some v
  | None => Some v
  end.

(** [title: Optional[str] = Field(None, min_length=1, max_length=500)] *)
Definition field_title (m : option (option string))
  : option (option string) :=
  match m with
  | None => Some None
  | Some None => validate_title None
  | Some (Some s) =>
      if (1 <=? len s) && (len s <=? 500) then validate_title (Some s)
      else None
  end.

(** [description: Optional[str] = Field(None, max_length=10000)]; the
    update schema has no validator for it. *)
Definition field_description (m : option (option string))
  : option (option string) :=
  match m with
  | None | Some None => Some None
  | Some (Some s) => if len s <=? 10000 then Some (Some s) else None
  end.

Definition field_status (m : option (option string))
  : option (option string) :=
  match m with
  | None => Some None
  | Some v => validate_status v
  end.

Definition field_priority (m : option (option string))
  : option (option string) :=
  match m with
  | None => Some None
  | Some v => validate_priority v
  end.

Definition model_validate (body : json) : validated t :=
  match field_title (body !! "title"),
        field_description (body !! "description"),
        field_status (body !! "status"),
        field_priority (body !! "priority") with
  | Some ti, Some de, Some st, Some pr => Valid (mk ti de st pr)
  | ti, de, st, pr =>
      Invalid (field_error "title" ti ++ field_error "description" de
               ++ field_error "status" st ++ field_error "priority" pr)
  end.
End TaskUpdateRequest.

(** ** [core/auth.py]: the user model *)

Module User.
Record t := mk {
  id : string;
  email : string;
  name : option string
}.
End User.

(** ** The database session *)

(** Calls made on the repository, in the order they were made. *)
Inductive RepoCall :=
| Call_find_by_user_id (user_id : string)
| Call_find_by_id (user_id : string) (task_id : UUID)
| Call_create (user_id : string)
| Call_update (user_id : string) (task_id : UUID)
| Call_soft_delete (user_id : string) (task_id : UUID).

(** The [tasks] table as the session sees it, and the log of repository
    calls. *)
Record Store := mkStore {
  rows : list Task.t;
  calls : list RepoCall
}.

(** Values drawn by the column defaults when a row is constructed:
    [uuid4()] for [id], [datetime.utcnow()] for each timestamp. *)
Record Defaults := mkDefaults {
  default_id : UUID;
  default_created_at : datetime;
  default_updated_at : datetime
}.

(** A Python [dict] with string keys whose values are strings or [None],
    in insertion order. *)
Definition dict : Type := list (string * option string).

Definition dict_get (d : dict) (key : string) : option (option string) :=
  snd <$> (snd <$> list_find (λ kv, kv.1 = key) d).

(** ** [repositories/task_repository.py] *)

Module TaskRepository.

Definition log (c : RepoCall) : M Store unit :=
  modify (λ σ, mkStore (rows σ) (calls σ ++ [c])).

(** [Task.id == task_id, Task.user_id == user_id] *)
Definition scoped (user_id : string) (task_id : UUID) (t : Task.t) : Prop :=
  Task.id t = task_id ∧ Task.user_id t = user_id.

#[global] Instance scoped_dec user_id task_id t :
  Decision (scoped user_id task_id t).
Proof. unfold scoped. apply _. Defined.

(** [Task.user_id == user_id, Task.status != "deleted"] *)
Definition listed (user_id : string) (t : Task.t) : Prop :=
  Task.user_id t = user_id ∧ Task.status t ≠ "deleted".

#[global] Instance listed_dec user_id t : Decision (listed user_id t).
Proof. unfold listed. apply _. Defined.

(** [order_by(Task.created_at.desc())]: [a] may precede [b]. *)
Definition newest_first (a b : Task.t) : Prop :=
  Task.created_at b ≤ Task.created_at a.

#[global] Instance newest_first_dec : RelDecision newest_first.
Proof. intros a b. unfold newest_first. apply _. Defined.

(** The order of rows with equal [created_at] is the engine's choice;
    the model sorts with a merge sort. *)
Definition find_by_user_id (user_id : string) : M Store (list Task.t) :=
  log (Call_find_by_user_id user_id);;
  σ ← get;
  mret (merge_sort newest_first (filter (listed user_id) (rows σ))).

(** [result.scalars().first()], with the position of the row. *)
Definition first_scoped (user_id : string) (task_id : UUID)
    (l : list Task.t) : option (nat * Task.t) :=
  list_find (scoped user_id task_id) l.

Definition find_by_id (user_id : string) (task_id : UUID)
  : M Store (option Task.t) :=
  log (Call_find_by_id user_id task_id);;
  σ ← get;
  mret (snd <$> first_scoped user_id task_id (rows σ)).

(** [session.add(task); commit()] for an object loaded by
    [find_by_id]: the row it was loaded from is overwritten. *)
Definition commit_loaded (user_id : string) (task_id : UUID)
    (task : Task.t) : M Store unit :=
  modify (λ σ,
    match first_scoped user_id task_id (rows σ) with
    | Some (i, _) => mkStore (<[i := task]> (rows σ)) (calls σ)
    | None => σ
    end).

(** [create]: [task_data["title"]] (a [KeyError] when the key is
    missing), [.get("description")], [.get("priority", "medium")],
    [status="pending"]. A [None] title and a primary key already in the
    table make the commit fail; the session is rolled back and the error
    re-raised. *)
Definition create (user_id : string) (task_data : dict) (d : Defaults)
  : M Store Task.t :=
  log (Call_create user_id);;
  σ ← get;
  match dict_get task_data "title" with
  | None => raise KeyError
  | Some None => raise SQLAlchemyError
  | Some (Some title) =>
      let task :=
        Task.mk (default_id d) user_id title
          (default None (dict_get task_data "description"))
          "pending"
          (default (Some "medium") (dict_get task_data "priority"))
          (default_created_at d) (default_updated_at d) in
      if bool_decide (default_id d ∈ Task.id <$> rows σ)
      then raise SQLAlchemyError
      else modify (λ σ, mkStore (rows σ ++ [task]) (calls σ));; mret task
  end.

(** [hasattr(task, key)] for the columns of the table. *)
Definition hasattr (key : string) : bool :=
  bool_decide (key ∈ ["id"; "user_id"; "title"; "description"; "status";
                      "priority"; "created_at"; "updated_at"]).

(** [setattr(task, key, value)] followed by the flush of that column.
    [None] stands for a value the column cannot store: [None] in a
    [nullable=False] column, or a string in the [id] or timestamp
    columns. *)
Definition setattr (task : Task.t) (key : string) (value : option string)
  : option Task.t :=
  let '(Task.mk i u ti de st pr ca ua) := task in
  if bool_decide (key = "user_id") then
    s ← value; Some (Task.mk i s ti de st pr ca ua)
  else if bool_decide (key = "title") then
    s ← value; Some (Task.mk i u s de st pr ca ua)
  else if bool_decide (key = "description") then
    Some (Task.mk i u ti value st pr ca ua)
  else if bool_decide (key = "status") then
    s ← value; Some (Task.mk i u ti de s pr ca ua)
  else if bool_decide (key = "priority") then
    Some (Task.mk i u ti de st value ca ua)
  else None.

(** [for key, value in updates.items(): if hasattr(task, key): setattr(...)] *)
Definition apply_updates (task : Task.t) (updates : dict) : option Task.t :=
  foldl (λ acc kv, t ← acc;
                   if hasattr kv.1 then setattr t kv.1 kv.2 else Some t)
        (Some task) updates.

Definition set_updated_at (now : datetime) (task : Task.t) : Task.t :=
  let '(Task.mk i u ti de st pr ca _) := task in
  Task.mk i u ti de st pr ca now.

Definition set_status (s : string) (task : Task.t) : Task.t :=
  let '(Task.mk i u ti de _ pr ca ua) := task in
  Task.mk i u ti de s pr ca ua.

(** [update]; [now] is [datetime.now(timezone.utc).replace(tzinfo=None)]. *)
Definition update (user_id : string) (task_id : UUID) (updates : dict)
    (now : datetime) : M Store (option Task.t) :=
  log (Call_update user_id task_id);;
  task ← find_by_id user_id task_id;
  match task with
  | None => mret None
  | Some task =>
      match apply_updates task updates with
      | Some task =>
          let task := set_updated_at now task in
          commit_loaded user_id task_id task;;
          mret (Some task)
      | None => raise SQLAlchemyError
      end
  end.

Definition soft_delete (user_id : string) (task_id : UUID) (now : datetime)
  : M Store bool :=
  log (Call_soft_delete user_id task_id);;
  task ← find_by_id user_id task_id;
  match task with
  | None => mret false
  | Some task =>
      let task := set_updated_at now (set_status "deleted" task) in
      commit_loaded user_id task_id task;;
      mret true
  end.

End TaskRepository.

(** ** [services/task_service.py] *)

Module TaskService.

(** [except HTTPException: raise] then [except Exception: raise
    HTTPException(500, detail)] *)
Definition reraise_or_500 {A} (detail : string) (e : exn) : M Store A :=
  if is_HTTPException e then raise e else raise (HTTPException 500 detail).

Definition list_tasks (user_id : string) : M Store (list Task.t) :=
  try_except
    (TaskRepository.find_by_user_id user_id)
    (λ _, raise (HTTPException 500 "Failed to retrieve tasks")).

Definition create_task (user_id : string)
    (task_request : TaskCreateRequest.t) (d : Defaults) : M Store Task.t :=
  let title := TaskCreateRequest.title task_request in
  let description := TaskCreateRequest.description task_request in
  let priority := TaskCreateRequest.priority task_request in
  raise_if (bool_decide (title = "") || (len (strip title) =? 0))
    (HTTPException 400 "Task title cannot be empty");;
  raise_if (truthy description && (10000 <? len (default "" description)))
    (HTTPException 400 "Task description cannot exceed 10,000 characters");;
  try_except
    (let task_data : dict :=
       [("title", Some (strip title));
        ("description",
          if truthy description then strip <$> description else None);
        ("priority", if truthy priority then priority else Some "medium")] in
     TaskRepository.create user_id task_data d)
    (λ _, raise (HTTPException 500 "Failed to create task")).

Definition get_task (user_id : string) (task_id : UUID) : M Store Task.t :=
  try_except
    (task ← TaskRepository.find_by_id user_id task_id;
     match task with
     | None => raise (HTTPException 404 "Task not found")
     | Some task => mret task
     end)
    (reraise_or_500 "Failed to retrieve task").

(** [update_data] is filled in the order title, description, status,
    priority, one key per field that is not [None]. *)
Definition update_data (updates : TaskUpdateRequest.t) : dict :=
  (match TaskUpdateRequest.title updates with
   | Some title => [("title", Some (strip title))]
   | None => []
   end) ++
  (match TaskUpdateRequest.description updates with
   | Some description =>
       [("description",
          if truthy (Some description) then Some (strip description)
          else None)]
   | None => []
   end) ++
  (match TaskUpdateRequest.status updates with
   | Some status => [("status", Some status)]
   | None => []
   end) ++
  (match TaskUpdateRequest.priority updates with
   | Some priority => [("priority", Some priority)]
   | None => []
   end).

Definition update_task (user_id : string) (task_id : UUID)
    (updates : TaskUpdateRequest.t) (now : datetime)
  : M Store (option Task.t) :=
  try_except
    (task ← TaskRepository.find_by_id user_id task_id;
     match task with
     | None => raise (HTTPException 404 "Task not found")
     | Some task =>
         raise_if (bool_decide (Task.status task = "deleted"))
           (HTTPException 400 "Cannot update deleted task");;
         raise_if
           (match TaskUpdateRequest.title updates with
            | Some title => len (strip title) =? 0
            | None => false
            end)
           (HTTPException 400 "Task title cannot be empty");;
         raise_if
           (match TaskUpdateRequest.description updates with
            | Some description => 10000 <? len description
            | None => false
            end)
           (HTTPException 400
              "Task description cannot exceed 10,000 characters");;
         TaskRepository.update user_id task_id (update_data updates) now
     end)
    (reraise_or_500 "Failed to update task").

Definition delete_task (user_id : string) (task_id : UUID) (now : datetime)
  : M Store bool :=
  try_except
    (task ← TaskRepository.find_by_id user_id task_id;
     match task with
     | None => raise (HTTPException 404 "Task not found")
     | Some task =>
         if bool_decide (Task.status task = "deleted") then mret true
         else TaskRepository.soft_delete user_id task_id now
     end)
    (reraise_or_500 "Failed to delete task").

End TaskService.

(** ** [api/v1/tasks.py] *)

Inductive Response :=
| TaskListResponse (status : string) (data : list Task.t) (total : nat)
| TaskSingleResponse (status : string) (data : Task.t)
    (message : option string)
| JSONObject (members : list (string * string)).

Module tasks.

(** [TaskResponse.model_validate(task)]: fails on [None]. *)
Definition model_validate (task : option Task.t) : M Store Task.t :=
  match task with
  | Some task => mret task
  | None => raise ValidationError
  end.

Definition list_tasks (user_id : string) (current_user : User.t)
  : M Store Response :=
  raise_if (bool_decide (User.id current_user ≠ user_id))
    (HTTPException 403 "You can only access your own tasks");;
  tasks ← TaskService.list_tasks user_id;
  mret (TaskListResponse "success" tasks (length tasks)).

Definition get_task (user_id : string) (task_id : UUID)
    (current_user : User.t) : M Store Response :=
  raise_if (bool_decide (User.id current_user ≠ user_id))
    (HTTPException 403 "You can only access your own tasks");;
  task ← TaskService.get_task user_id task_id;
  mret (TaskSingleResponse "success" task None).

Definition create_task (user_id : string)
    (task_request : TaskCreateRequest.t) (current_user : User.t)
    (d : Defaults) : M Store Response :=
  raise_if (bool_decide (User.id current_user ≠ user_id))
    (HTTPException 403 "You can only create tasks for yourself");;
  task ← TaskService.create_task user_id task_request d;
  mret (TaskSingleResponse "success" task (Some "Task created successfully")).

Definition update_task (user_id : string) (task_id : UUID)
    (task_request : TaskUpdateRequest.t) (current_user : User.t)
    (now : datetime) : M Store Response :=
  raise_if (bool_decide (User.id current_user ≠ user_id))
    (HTTPException 403 "You can only update your own tasks");;
  task ← TaskService.update_task user_id task_id task_request now;
  data ← model_validate task;
  mret (TaskSingleResponse "success" data (Some "Task updated successfully")).

Definition delete_task (user_id : string) (task_id : UUID)
    (current_user : User.t) (now : datetime) : M Store Response :=
  raise_if (bool_decide (User.id current_user ≠ user_id))
    (HTTPException 403 "You can only delete your own tasks");;
  TaskService.delete_task user_id task_id now;;
  mret (JSONObject [("status", "success");
                    ("message", "Task deleted successfully")]).

(** The PATCH route as FastAPI runs it: the body is validated against
    [TaskUpdateRequest] before the handler is entered; a failure is
    answered 422 by [validation_exception_handler]. *)
Definition patch_route (user_id : string) (task_id : UUID) (body : json)
    (current_user : User.t) (now : datetime) : M Store Response :=
  match TaskUpdateRequest.model_validate body with
  | Invalid fields => raise (RequestValidationError fields)
  | Valid task_request =>
      update_task user_id task_id task_request current_user now
  end.

(** The POST route, likewise. *)
Definition post_route (user_id : string) (body : json)
    (current_user : User.t) (d : Defaults) : M Store Response :=
  match TaskCreateRequest.model_validate body with
  | Invalid fields => raise (RequestValidationError fields)
  | Valid task_request => create_task user_id task_request current_user d
  end.

End tasks.

(** ** [core/auth.py]: the JWKS cache and token verification *)

(** RSA public key material, as [RSAAlgorithm.from_jwk] returns it. *)
Definition Key : Type := N.

(** The decoded view of a compact token. [signed_by] is the public key
    under which the signature verifies, if there is one. *)
Record Header := mkHeader {
  kid : option string;
  alg : string
}.

(** The claims that PyJWT and [verify_token] read, with their standard
    types: the time claims are integers, in seconds, the others
    strings. *)
Record Payload := mkPayload {
  iat : option Z;
  nbf : option Z;
  exp : option Z;
  sub : option string;
  email : option string;
  name : option string
}.

Record JWT := mkJWT {
  header : Header;
  signed_by : option Key;
  payload : Payload
}.

(** A success answer that is not a key set, by the first statement of
    [_get_jwks] that fails on it: the body is not JSON
    ([response.json()]), the JSON value is not an object ([jwks.get]),
    its [keys] member is not a list of objects (the loop and
    [key[...]]), an entry has no [kid], or an entry is not an RSA key
    or does not hold the numbers of one ([RSAAlgorithm.from_jwk]). *)
Inductive malformed :=
| NotJSON
| NotAnObject
| NotAListOfObjects
| NoKid
| NotAnRSAKey
| NotKeyNumbers.

Definition malformed_exn (m : malformed) : exn :=
  match m with
  | NotJSON => JSONDecodeError
  | NotAnObject => AttributeError
  | NotAListOfObjects => TypeError
  | NoKid => KeyError
  | NotAnRSAKey => InvalidKeyError
  | NotKeyNumbers => ValueError
  end.

(** What the GET on [/api/auth/jwks] yields: [httpx.HTTPError] (transport
    failure, or an error status turned into one by [raise_for_status]),
    the [kid] and key of each entry of the returned key set, or a
    success answer that is not a key set. *)
Inductive FetchOutcome :=
| FetchError
| FetchOk (jwks : list (string * Key))
| FetchMalformed (m : malformed).

(** The surroundings of the verifier: the clock at its n-th reading, the
    identity provider's answer to the n-th request, and the compact
    serialisation of tokens (base64url and JSON parsing), [None] for a
    string that is not a well-formed token. *)
Record Env := mkEnv {
  time : nat → Z;
  jwks_endpoint : nat → FetchOutcome;
  parse : string → option JWT
}.

Module auth.

Definition JWKS_CACHE_TTL : Z := 300.

Record _JWKSCache := mk_JWKSCache {
  keys : gmap string Key;
  expires_at : Z
}.

(** The module-level [_cache], with the number of clock readings and of
    requests sent to the identity provider so far. *)
Record State := mkState {
  _cache : option _JWKSCache;
  ticks : nat;
  fetches : nat
}.

Section with_env.
Context (env : Env).

Definition time_time : M State Z := λ σ,
  (Ok (time env (ticks σ)), mkState (_cache σ) (S (ticks σ)) (fetches σ)).

Definition set_cache (c : option _JWKSCache) : M State unit :=
  modify (λ σ, mkState c (ticks σ) (fetches σ)).

(** [client.get(...)], [raise_for_status()], [response.json()] and the
    reading of the entries in the loop, up to the first statement that
    raises. *)
Definition client_get : M State (list (string * Key)) := λ σ,
  let σ' := mkState (_cache σ) (ticks σ) (S (fetches σ)) in
  match jwks_endpoint env (fetches σ) with
  | FetchOk jwks => (Ok jwks, σ')
  | FetchError => (Raise HTTPError, σ')
  | FetchMalformed m => (Raise (malformed_exn m), σ')
  end.

(** The second half of [_get_jwks]: fetch, build the lookup by [kid]
    (a later entry with the same [kid] overwrites an earlier one) and
    replace the cache. *)
Definition build_keys (jwks : list (string * Key)) : gmap string Key :=
  foldl (λ keys key, <[key.1 := key.2]> keys) ∅ jwks.

Definition fetch_jwks (now : Z) : M State (gmap string Key) :=
  jwks ← client_get;
  let keys := build_keys jwks in
  set_cache (Some (mk_JWKSCache keys (now + JWKS_CACHE_TTL)));;
  mret keys.

Definition _get_jwks : M State (gmap string Key) :=
  now ← time_time;
  σ ← get;
  match _cache σ with
  | Some c =>
      if bool_decide (now < expires_at c) then mret (keys c)
      else fetch_jwks now
  | None => fetch_jwks now
  end.

Definition clear_jwks_cache : M State unit := set_cache None.

(** *** PyJWT *)

(** [jwt.get_unverified_header(token)] *)
Definition get_unverified_header (token : string) : M State Header :=
  match parse env token with
  | Some t => mret (header t)
  | None => raise (InvalidTokenError DecodeError)
  end.

(** [jwt.decode(token, key, algorithms=["RS256"],
    options={"verify_aud": False})]: PyJWT checks the algorithm and the
    signature first and validates the claims of the payload only
    afterwards, against one reading of the clock and in the order
    [iat], [nbf], [exp]: a token issued in the future or not yet valid
    raises [ImmatureSignatureError], an expired one
    [ExpiredSignatureError]. No issuer is given and the audience check
    is switched off. *)
Definition decode (token : string) (key : Key) : M State Payload :=
  match parse env token with
  | None => raise (InvalidTokenError DecodeError)
  | Some t =>
      raise_if (bool_decide (alg (header t) ≠ "RS256"))
        (InvalidTokenError InvalidAlgorithmError);;
      raise_if (bool_decide (signed_by t ≠ Some key))
        (InvalidTokenError InvalidSignatureError);;
      now ← time_time;
      raise_if (match iat (payload t) with
                | Some i => now <? i
                | None => false
                end)
        (InvalidTokenError ImmatureSignatureError);;
      raise_if (match nbf (payload t) with
                | Some n => now <? n
                | None => false
                end)
        (InvalidTokenError ImmatureSignatureError);;
      raise_if (match exp (payload t) with
                | Some e => e <=? now
                | None => false
                end)
        (InvalidTokenError ExpiredSignatureError);;
      mret (payload t)
  end.

(** [not kid or kid not in public_keys] *)
Definition unknown_kid (kid : option string) (public_keys : gmap string Key)
  : bool :=
  negb (truthy kid) || bool_decide (kid ≫= (public_keys !!.) = None).

(** The three [except] clauses of [verify_token]. *)
Definition on_error (e : exn) : M State User.t :=
  match e with
  | InvalidTokenError ExpiredSignatureError =>
      raise (HTTPException 401 "Token has expired. Please sign in again.")
  | InvalidTokenError _ => raise (HTTPException 401 "Invalid token")
  | HTTPError =>
      raise (HTTPException 503 "Auth server unavailable. Please try again.")
  | _ => raise e
  end.

(** [if token.startswith("Bearer "): token = token[7:]] *)
Definition strip_bearer (token : string) : string :=
  if startswith "Bearer " token then slice_from 7 token else token.

Definition verify_token (token : string) : M State User.t :=
  try_except
    (let token := strip_bearer token in
     public_keys ← _get_jwks;
     unverified_header ← get_unverified_header token;
     let kid := kid unverified_header in
     public_keys ←
       (if unknown_kid kid public_keys then
          clear_jwks_cache;;
          public_keys ← _get_jwks;
          raise_if (unknown_kid kid public_keys)
            (HTTPException 401 "Invalid token key");;
          mret public_keys
        else mret public_keys);
     key ← from_option mret (raise KeyError) (kid ≫= (public_keys !!.));
     payload ← decode token key;
     let user_id := sub payload in
     raise_if (negb (truthy user_id))
       (HTTPException 401 "Invalid token: missing user id");;
     mret (User.mk (default "" user_id) (default "" (email payload))
             (name payload)))
    on_error.

(** [get_current_user]: the dependency of every task route. *)
Definition get_current_user (authorization : string) : M State User.t :=
  verify_token authorization.

End with_env.
End auth.

(** ** Failed key-set lookups *)

(** The exception that a request to the JWKS endpoint raises in
    [_get_jwks], if it yields no key set. *)
Definition fetch_failure (o : FetchOutcome) : option exn :=
  match o with
  | FetchOk _ => None
  | FetchError => Some HTTPError
  | FetchMalformed m => Some (malformed_exn m)
  end.

(** What leaves [verify_token] when the key-set lookup raised [e]: the
    503 of the last [except] clause for [httpx.HTTPError], and [e]
    itself otherwise. *)
Definition surfaced (e : exn) : exn :=
  match e with
  | HTTPError =>
      HTTPException 503 "Auth server unavailable. Please try again."
  | _ => e
  end.

(** ** Requests, runs and the vocabulary of the properties *)

(** One request on the task routes, with the identity that
    [get_current_user] resolved for it and the values the handler draws
    from its surroundings. *)
Inductive Request :=
| ListTasks (user_id : string) (current_user : User.t)
| GetTask (user_id : string) (task_id : UUID) (current_user : User.t)
| CreateTask (user_id : string) (task_request : TaskCreateRequest.t)
    (current_user : User.t) (d : Defaults)
| UpdateTask (user_id : string) (task_id : UUID)
    (task_request : TaskUpdateRequest.t) (current_user : User.t)
    (now : datetime)
| DeleteTask (user_id : string) (task_id : UUID) (current_user : User.t)
    (now : datetime).

Definition handle (r : Request) : M Store Response :=
  match r with
  | ListTasks u cu => tasks.list_tasks u cu
  | GetTask u i cu => tasks.get_task u i cu
  | CreateTask u req cu d => tasks.create_task u req cu d
  | UpdateTask u i req cu now => tasks.update_task u i req cu now
  | DeleteTask u i cu now => tasks.delete_task u i cu now
  end.

(** The owner named in the path and the authenticated caller. *)
Definition path_owner (r : Request) : string :=
  match r with
  | ListTasks u _ | GetTask u _ _ | CreateTask u _ _ _
  | UpdateTask u _ _ _ _ | DeleteTask u _ _ _ => u
  end.

Definition caller (r : Request) : User.t :=
  match r with
  | ListTasks _ cu | GetTask _ _ cu | CreateTask _ _ cu _
  | UpdateTask _ _ _ cu _ | DeleteTask _ _ cu _ => cu
  end.

(** The store after a sequence of requests, responses dropped. *)
Definition handle_all (rs : list Request) (σ : Store) : Store :=
  foldl (λ σ r, snd (handle r σ)) σ rs.

(** A create request made by the owner itself. *)
Record CreateCall := mkCreateCall {
  cc_owner : string;
  cc_request : TaskCreateRequest.t;
  cc_defaults : Defaults
}.

(** Runs the create requests in order; returns the owners of the
    requests that were answered with a created task. *)
Fixpoint create_each (cs : list CreateCall) (σ : Store)
  : list string * Store :=
  match cs with
  | [] => ([], σ)
  | c :: cs =>
      match tasks.create_task (cc_owner c) (cc_request c)
              (User.mk (cc_owner c) "" None) (cc_defaults c) σ with
      | (Ok _, σ') =>
          let '(owners, σ'') := create_each cs σ' in
          (cc_owner c :: owners, σ'')
      | (Raise _, σ') => create_each cs σ'
      end
  end.

Definition empty_store : Store := mkStore [] [].

(** The store after one more repository call has been logged. *)
Definition logged (σ : Store) (c : RepoCall) : Store :=
  mkStore (rows σ) (calls σ ++ [c]).

(** The primary-key constraint on [tasks.id]. *)
Definition pk_unique (l : list Task.t) : Prop := NoDup (Task.id <$> l).

(** The fields of a row fixed at creation. *)
Definition identity (t : Task.t) : UUID * string * datetime :=
  (Task.id t, Task.user_id t, Task.created_at t).

(** From [σ] to [σ'] every row kept its place and its identity, and
    rows were added at the end only. *)
Definition grows (σ σ' : Store) : Prop :=
  identity <$> rows σ `prefix_of` identity <$> rows σ'.

(** From [σ] to [σ'] the primary key stayed unique. *)
Definition pk_kept (σ σ' : Store) : Prop :=
  pk_unique (rows σ) → pk_unique (rows σ').

(** The partial update in the specification's words: each of title,
    description, status and priority is replaced when the update
    provides it and kept otherwise; [updated_at] becomes the current
    time; nothing else changes. A provided title or description is
    stored trimmed, an empty description as [None]. *)
Definition partial_update (updates : TaskUpdateRequest.t) (now : datetime)
    (t : Task.t) : Task.t :=
  Task.mk (Task.id t) (Task.user_id t)
    (match TaskUpdateRequest.title updates with
     | Some s => strip s
     | None => Task.title t
     end)
    (match TaskUpdateRequest.description updates with
     | Some "" => None
     | Some s => Some (strip s)
     | None => Task.description t
     end)
    (match TaskUpdateRequest.status updates with
     | Some s => s
     | None => Task.status t
     end)
    (match TaskUpdateRequest.priority updates with
     | Some s => Some s
     | None => Task.priority t
     end)
    (Task.created_at t) now.

(** The two validations of [TaskService.update_task]. *)
Definition title_blank (updates : TaskUpdateRequest.t) : bool :=
  match TaskUpdateRequest.title updates with
  | Some title => len (strip title) =? 0
  | None => false
  end.

Definition description_too_long (updates : TaskUpdateRequest.t) : bool :=
  match TaskUpdateRequest.description updates with
  | Some description => 10000 <? len description
  | None => false
  end.

(** The row that a create request adds, in the specification's words:
    the trimmed title, the trimmed description or [None], status
    pending, the requested priority or medium, and the identifier and
    timestamps drawn at creation. *)
Definition new_task (user_id : string) (task_request : TaskCreateRequest.t)
    (d : Defaults) : Task.t :=
  Task.mk (default_id d) user_id
    (strip (TaskCreateRequest.title task_request))
    (if truthy (TaskCreateRequest.description task_request)
     then strip <$> TaskCreateRequest.description task_request else None)
    "pending"
    (if truthy (TaskCreateRequest.priority task_request)
     then TaskCreateRequest.priority task_request else Some "medium")
    (default_created_at d) (default_updated_at d).

(** The two validations of [TaskService.create_task]. *)
Definition create_rejected (task_request : TaskCreateRequest.t)
  : option string :=
  let title := TaskCreateRequest.title task_request in
  let description := TaskCreateRequest.description task_request in
  if bool_decide (title = "") || (len (strip title) =? 0)
  then Some "Task title cannot be empty"
  else if truthy description && (10000 <? len (default "" description))
  then Some "Task description cannot exceed 10,000 characters"
  else None.

(** The soft delete in the specification's words. *)
Definition mark_deleted (now : datetime) (t : Task.t) : Task.t :=
  Task.mk (Task.id t) (Task.user_id t) (Task.title t) (Task.description t)
    "deleted" (Task.priority t) (Task.created_at t) now.

(** ** Sample data *)

Module sample.

Definition alice : User.t := User.mk "alice" "alice@example.com" None.

Definition groceries : Task.t :=
  Task.mk 1%N "alice" "Groceries" None "pending" (Some "medium") 10 10.
Definition archive : Task.t :=
  Task.mk 2%N "alice" "Archive" (Some "old") "deleted" (Some "low") 20 25.
Definition report : Task.t :=
  Task.mk 3%N "bob" "Report" None "pending" (Some "high") 30 30.

Definition store : Store := mkStore [groceries; archive; report] [].

(** Two create requests of alice and one of bob. *)
Definition three_creates : list CreateCall :=
  [mkCreateCall "alice" (TaskCreateRequest.mk "  Padded  " None None)
     (mkDefaults 7%N 100 100);
   mkCreateCall "bob" (TaskCreateRequest.mk "Theirs" (Some "  ") (Some "low"))
     (mkDefaults 8%N 110 110);
   mkCreateCall "alice" (TaskCreateRequest.mk "Second" None (Some "high"))
     (mkDefaults 9%N 120 121)].

Definition rename : TaskUpdateRequest.t :=
  TaskUpdateRequest.mk (Some "  Milk  ") None (Some "completed") None.

Definition k1 : Key := 11%N.

(** Expired at 100; the signature verifies under no key. *)
Definition expired_forged : JWT :=
  mkJWT (mkHeader (Some "k1") "RS256") None
    (mkPayload None None (Some 100) (Some "alice")
       (Some "alice@example.com") None).

(** Issued at 40 and expired at 100; signed by [k1]. *)
Definition expired_signed : JWT :=
  mkJWT (mkHeader (Some "k1") "RS256") (Some k1)
    (mkPayload (Some 40) None (Some 100) (Some "alice")
       (Some "alice@example.com") None).

(** Expired at 100 and not valid before 5000; signed by [k1]. *)
Definition premature : JWT :=
  mkJWT (mkHeader (Some "k1") "RS256") (Some k1)
    (mkPayload None (Some 5000) (Some 100) (Some "alice")
       (Some "alice@example.com") None).

(** Issued at 900, valid from then until 9000; signed by [k1]. *)
Definition current : JWT :=
  mkJWT (mkHeader (Some "k1") "RS256") (Some k1)
    (mkPayload (Some 900) (Some 900) (Some 9000) (Some "alice")
       (Some "alice@example.com") (Some "Alice")).

(** Signed by a key the cache has never seen. *)
Definition rotated : JWT :=
  mkJWT (mkHeader (Some "k2") "RS256") (Some 22%N)
    (mkPayload None None (Some 9000) (Some "alice") None None).

(** No key identifier in the header. *)
Definition anonymous : JWT :=
  mkJWT (mkHeader None "RS256") (Some k1)
    (mkPayload None None (Some 9000) (Some "alice") None None).

Definition codec (s : string) : option JWT :=
  if bool_decide (s = "current") then Some current
  else if bool_decide (s = "expired.forged") then Some expired_forged
  else if bool_decide (s = "expired.signed") then Some expired_signed
  else if bool_decide (s = "premature") then Some premature
  else if bool_decide (s = "rotated") then Some rotated
  else if bool_decide (s = "anonymous") then Some anonymous
  else None.

(** The clock stands at 1000; the provider serves [k1], or is down. *)
Definition env_up : Env :=
  mkEnv (λ _, 1000) (λ _, FetchOk [("k1", k1)]) codec.
Definition env_down : Env :=
  mkEnv (λ _, 1000) (λ _, FetchError) codec.

(** The provider answers 200 with a key set one of whose entries has no
    [kid]. *)
Definition env_no_kid : Env :=
  mkEnv (λ _, 1000) (λ _, FetchMalformed NoKid) codec.

Definition cold : auth.State := auth.mkState None 0 0.
Definition snapshot : auth._JWKSCache :=
  auth.mk_JWKSCache {[ "k1" := k1 ]} 5000.
Definition warm : auth.State := auth.mkState (Some snapshot) 0 0.

End sample.

(** ** Further vocabulary *)

(** The last part of [verify_token], once the key is resolved: decode,
    require a subject, build the user; with the [except] clauses. *)
Definition check_claims (env : Env) (token : string) (key : Key)
  : M auth.State User.t :=
  try_except
    (payload ← auth.decode env (auth.strip_bearer token) key;
     raise_if (negb (truthy (sub payload)))
       (HTTPException 401 "Invalid token: missing user id");;
     mret (User.mk (default "" (sub payload))
             (default "" (email payload)) (name payload)))
    auth.on_error.

(** The answers [verify_token] gives: a user, a 401 or a 503. *)
Definition answered (r : result User.t) : Prop :=
  match r with
  | Ok _ => True
  | Raise (HTTPException status_code _) => status_code = 401 ∨ status_code = 503
  | Raise _ => False
  end.

(** The call that took the verifier from [σ] to [σ'] sent a request that
    the JWKS endpoint answered with something that is not a key set,
    and [r] is the exception of reading that answer. *)
Definition malformed_answer (env : Env) (σ σ' : auth.State)
    (r : result User.t) : Prop :=
  ∃ m (f : nat),
    (auth.fetches σ ≤ f < auth.fetches σ')%nat
    ∧ jwks_endpoint env f = FetchMalformed m
    ∧ r = Raise (malformed_exn m).

(** From [σ] to [σ'] every soft-deleted row stayed exactly as it was. *)
Definition deleted_kept (σ σ' : Store) : Prop :=
  ∀ k t, rows σ !! k = Some t → Task.status t = "deleted" →
         rows σ' !! k = Some t.

(** The rows of one owner, in table order. *)
Definition rows_of (owner : string) (σ : Store) : list Task.t :=
  filter (λ t, Task.user_id t = owner) (rows σ).

(** From [σ] to [σ'] the rows of [owner] stayed exactly as they were. *)
Definition owner_kept (owner : string) (σ σ' : Store) : Prop :=
  rows_of owner σ' = rows_of owner σ.

(** The characters of a string, and [lstrip] and [strip] on them. *)
Definition chars (s : string) : list ascii := list_ascii_of_string s.

Fixpoint ltrim (l : list ascii) : list ascii :=
  match l with
  | c :: l' => if isspace c then ltrim l' else l
  | [] => []
  end.

Definition trim (l : list ascii) : list ascii :=
  rev (ltrim (rev (ltrim l))).

(** The status and priority values the schemas accept. *)
Definition update_statuses : list string :=
  ["pending"; "in-progress"; "completed"].
Definition priorities : list string := ["low"; "medium"; "high"].

(** A string as the title validators return it: trimmed, not empty, at
    most [n] characters. *)
Definition trimmed_within (n : Z) (s : string) : Prop :=
  s ≠ "" ∧ strip s = s ∧ len s ≤ n.

(** ** [api/rate_limit_middleware.py] *)

Module RateLimitMiddleware.

(** [request_counts] maps a user to [(count, window_start)]. *)
Record t := mk {
  requests_per_minute : Z;
  request_counts : gmap string (Z * Z)
}.

(** What [dispatch] reads of a request: the path, the [user_id] path
    parameter, and the host of the client if there is one. *)
Record HttpRequest := mkRequest {
  path : string;
  path_user_id : option string;
  client_host : option string
}.

(** [dispatch] either awaits [call_next(request)] or raises the 429. *)
Inductive Outcome :=
| CallNext
| TooManyRequests (limit : Z).

(** [request.path_params.get("user_id")], or the client host, or
    "unknown". *)
Definition user_of (request : HttpRequest) : string :=
  if truthy (path_user_id request) then default "" (path_user_id request)
  else default "unknown" (client_host request).

Definition _cleanup_old_entries (current_time : Z)
    (counts : gmap string (Z * Z)) : gmap string (Z * Z) :=
  filter (λ kv, ¬ (120 < current_time - kv.2.2)) counts.

(** [current_time] is the reading of the clock in [dispatch];
    [factory_time] is the reading the [defaultdict] factory makes when
    the user has no entry yet. *)
Definition dispatch (request : HttpRequest) (current_time factory_time : Z)
    (self : t) : Outcome * t :=
  if startswith "/health" (path request) then (CallNext, self)
  else
    let user_id := user_of request in
    let '(count, window_start) :=
      default (0, factory_time) (request_counts self !! user_id) in
    let '(count, window_start) :=
      if bool_decide (60 < current_time - window_start)
      then (0, current_time) else (count, window_start) in
    let count := count + 1 in
    let counts := <[user_id := (count, window_start)]> (request_counts self) in
    if bool_decide (requests_per_minute self < count) then
      (TooManyRequests (requests_per_minute self),
       mk (requests_per_minute self) counts)
    else
      (CallNext,
       mk (requests_per_minute self)
         (if bool_decide (1000 < Z.of_nat (size counts))
          then _cleanup_old_entries current_time counts else counts)).

End RateLimitMiddleware.

(** Requests dispatched one after the other, each with its two readings
    of the clock. *)
Fixpoint dispatch_each
    (reqs : list (RateLimitMiddleware.HttpRequest * Z * Z))
    (self : RateLimitMiddleware.t)
  : list RateLimitMiddleware.Outcome * RateLimitMiddleware.t :=
  match reqs with
  | [] => ([], self)
  | (request, current_time, factory_time) :: reqs =>
      let '(outcome, self) :=
        RateLimitMiddleware.dispatch request current_time factory_time self in
      let '(outcomes, self) := dispatch_each reqs self in
      (outcome :: outcomes, self)
  end.

(** A request of [user] that is not a health check and arrives at most
    60 seconds after [window_start]. *)
Definition in_window (user : string) (window_start : Z)
    (req : RateLimitMiddleware.HttpRequest * Z * Z) : Prop :=
  startswith "/health" (RateLimitMiddleware.path req.1.1) = false
  ∧ RateLimitMiddleware.user_of req.1.1 = user
  ∧ req.1.2 - window_start ≤ 60.

Module sample_limiter.

(** Two requests a minute; alice has made one in the window that began
    at 1000, bob's window began at 100. *)
Definition limiter : RateLimitMiddleware.t :=
  RateLimitMiddleware.mk 2 {[ "alice" := (1, 1000); "bob" := (5, 100) ]}.

Definition alice_tasks : RateLimitMiddleware.HttpRequest :=
  RateLimitMiddleware.mkRequest "/api/alice/tasks" (Some "alice")
    (Some "10.0.0.1").

(** Full: alice has used both requests of her window. *)
Definition full : RateLimitMiddleware.t :=
  RateLimitMiddleware.mk 2 {[ "alice" := (2, 1000) ]}.

End sample_limiter.

(** ** The command-line todo list: [todo-cli/src/models/task.py],
    [todo-cli/src/storage/json_store.py] and
    [Phase-1/todo-cli/src/services/task_service.py] *)

Module cli.

(** A call returns, or raises [ValueError] or [KeyError]. *)
Inductive raised (A : Type) :=
| Return (a : A)
| ValueError (message : string)
| MissingKey (key : string).
Arguments Return {A} a.
Arguments ValueError {A} message.
Arguments MissingKey {A} key.

Module Task.

Record t := mk {
  id : Z;
  title : string;
  description : option string;
  status : string
}.

(** A dictionary with the members that [to_dict] writes, each present
    or not. *)
Record dict := mkdict {
  d_id : option Z;
  d_title : option string;
  d_description : option (option string);
  d_status : option string
}.

Definition validate (self : t) : raised unit :=
  if bool_decide (title self = "") || bool_decide (strip (title self) = "")
  then ValueError "Title must not be empty or contain only whitespace"
  else if bool_decide (status self ∉ ["pending"; "completed"])
  then ValueError "Status must be either 'pending' or 'completed'"
  else Return tt.

(** [Task(id, title, description, status)] *)
Definition __init__ (id : Z) (title : string) (description : option string)
    (status : string) : raised t :=
  let self := mk id title description status in
  match validate self with
  | Return _ => Return self
  | ValueError message => ValueError message
  | MissingKey key => MissingKey key
  end.

Definition to_dict (self : t) : dict :=
  mkdict (Some (id self)) (Some (title self)) (Some (description self))
    (Some (status self)).

Definition from_dict (data : dict) : raised t :=
  match d_id data, d_title data with
  | None, _ => MissingKey "id"
  | Some _, None => MissingKey "title"
  | Some id, Some title =>
      __init__ id title (default (Some "") (d_description data))
        (default "pending" (d_status data))
  end.

End Task.

Module JSONStore.

(** The file at [file_path]: absent, not JSON, or an object of the
    shape that [_save_to_file] writes (tasks keyed by integers, each
    with the members of [to_dict] present or not, and an integer
    [next_id], present or not). JSON of another shape, which the program
    never writes, is not represented. *)
Inductive File :=
| NoFile
| Undecodable
| Json (tasks : gmap Z Task.dict) (next_id : option Z).

(** The store and the file it persists to; [writable] tells whether
    opening the file for writing succeeds. *)
Record t := mk {
  _tasks : gmap Z Task.t;
  _next_id : Z;
  file : File;
  writable : bool
}.

Definition loaded (r : raised Task.t) : option Task.t :=
  match r with Return task => Some task | _ => None end.

(** [_load_from_file]: the tasks and the next id. A task that
    [from_dict] rejects makes the whole load start fresh. *)
Definition _load_from_file (f : File) : gmap Z Task.t * Z :=
  match f with
  | NoFile | Undecodable => (∅, 1)
  | Json tasks next_id =>
      if bool_decide
           (map_Forall (λ _ data, is_Some (loaded (Task.from_dict data)))
              tasks)
      then (omap (λ data, loaded (Task.from_dict data)) tasks,
            default 1 next_id)
      else (∅, 1)
  end.

(** [JSONStore(file_path)] *)
Definition __init__ (f : File) (writable : bool) : t :=
  let '(tasks, next_id) := _load_from_file f in
  mk tasks next_id f writable.

Definition _save_to_file (self : t) : t :=
  if writable self
  then mk (_tasks self) (_next_id self)
         (Json (Task.to_dict <$> _tasks self) (Some (_next_id self)))
         (writable self)
  else self.

(** [task_data] carries no id; the id is taken, and the counter
    advanced, before the task is built. *)
Definition create_task (task_data : Task.dict) (self : t) : raised Z * t :=
  let task_id := _next_id self in
  let self := mk (_tasks self) (_next_id self + 1) (file self)
                (writable self) in
  match Task.d_title task_data with
  | None => (MissingKey "title", self)
  | Some title =>
      match Task.__init__ task_id title
              (default (Some "") (Task.d_description task_data))
              (default "pending" (Task.d_status task_data)) with
      | Return task =>
          (Return task_id,
           _save_to_file
             (mk (<[task_id := task]> (_tasks self)) (_next_id self)
                (file self) (writable self)))
      | ValueError message => (ValueError message, self)
      | MissingKey key => (MissingKey key, self)
      end
  end.

Definition get_task (task_id : Z) (self : t) : option Task.t :=
  _tasks self !! task_id.

Definition update_task (task_id : Z) (task_data : Task.dict) (self : t)
  : bool * t :=
  match _tasks self !! task_id with
  | None => (false, self)
  | Some task =>
      let task :=
        Task.mk (Task.id task)
          (default (Task.title task) (Task.d_title task_data))
          (default (Task.description task) (Task.d_description task_data))
          (default (Task.status task) (Task.d_status task_data)) in
      (true,
       _save_to_file
         (mk (<[task_id := task]> (_tasks self)) (_next_id self)
            (file self) (writable self)))
  end.

Definition delete_task (task_id : Z) (self : t) : bool * t :=
  match _tasks self !! task_id with
  | None => (false, self)
  | Some _ =>
      (true,
       _save_to_file
         (mk (delete task_id (_tasks self)) (_next_id self) (file self)
            (writable self)))
  end.

End JSONStore.

Module TaskService.

Definition add_task (title : string) (description : string)
    (store : JSONStore.t) : raised Z * JSONStore.t :=
  if bool_decide (title = "") || bool_decide (strip title = "")
  then (ValueError "Title must not be empty or contain only whitespace",
        store)
  else
    JSONStore.create_task
      (Task.mkdict None (Some title) (Some (Some description))
         (Some "pending"))
      store.

Definition update_task (task_id : Z) (title description : option string)
    (store : JSONStore.t) : bool * JSONStore.t :=
  match JSONStore.get_task task_id store with
  | None => (false, store)
  | Some _ =>
      JSONStore.update_task task_id
        (Task.mkdict None title (Some <$> description) None) store
  end.

Definition delete_task (task_id : Z) (store : JSONStore.t)
  : bool * JSONStore.t :=
  JSONStore.delete_task task_id store.

Definition toggle_task_status (task_id : Z) (store : JSONStore.t)
  : bool * JSONStore.t :=
  match JSONStore.get_task task_id store with
  | None => (false, store)
  | Some current_task =>
      let new_status :=
        if bool_decide (Task.status current_task = "pending")
        then "completed" else "pending" in
      JSONStore.update_task task_id
        (Task.mkdict None None None (Some new_status)) store
  end.

End TaskService.

(** One call on the service, and the store after a sequence of calls. *)
Inductive Command :=
| Add (title description : string)
| Update (task_id : Z) (title description : option string)
| Delete (task_id : Z)
| Toggle (task_id : Z).

Definition exec (c : Command) (store : JSONStore.t) : JSONStore.t :=
  match c with
  | Add title description => snd (TaskService.add_task title description store)
  | Update task_id title description =>
      snd (TaskService.update_task task_id title description store)
  | Delete task_id => snd (TaskService.delete_task task_id store)
  | Toggle task_id => snd (TaskService.toggle_task_status task_id store)
  end.

Definition exec_all (cs : list Command) (store : JSONStore.t) : JSONStore.t :=
  foldl (λ store c, exec c store) store cs.

(** Every stored id is below the counter. *)
Definition ids_below (store : JSONStore.t) : Prop :=
  ∀ k, is_Some (JSONStore._tasks store !! k) → k < JSONStore._next_id store.





(** The store that a restart of the program opens. *)
Definition reopen (store : JSONStore.t) : JSONStore.t :=
  JSONStore.__init__ (JSONStore.file store) (JSONStore.writable store).

End cli.

(** ** [core/validation.py] *)

Module validation.

(** [s[:n]]: the first [n] characters, or all but the last [-n] when
    [n] is negative. *)
Definition slice_to (n : Z) (s : string) : string :=
  String.substring 0
    (Z.to_nat (if n <? 0 then Z.max 0 (len s + n) else n)) s.

Definition sanitize_string (value : option string) (max_length : option Z)
  : option string :=
  match value with
  | None => None
  | Some value =>
      let sanitized := strip value in
      if bool_decide (sanitized = "") then None
      else
        Some (match max_length with
              | Some m =>
                  if negb (m =? 0) && (m <? len sanitized)
                  then slice_to m sanitized else sanitized
              | None => sanitized
              end)
  end.

(** The character class [[a-zA-Z0-9_-]]. *)
Definition id_char (c : ascii) : bool :=
  let n := N_of_ascii c in
  (((97 <=? n) && (n <=? 122)) || ((65 <=? n) && (n <=? 90))
   || ((48 <=? n) && (n <=? 57)) || (n =? 95) || (n =? 45))%N.

(** [re.match(r'^[a-zA-Z0-9_-]+$', s)]: [$] matches at the end of the
    string and also just before a newline that ends the string. *)
Fixpoint re_match_id (s : string) : bool :=
  match s with
  | EmptyString => false
  | String c rest =>
      id_char c
      && match rest with
         | EmptyString => true
         | String "010"%char EmptyString => true
         | _ => re_match_id rest
         end
  end.

Definition validate_user_id (user_id : string) : bool :=
  if bool_decide (user_id = "") then false
  else if (len user_id <? 1) || (255 <? len user_id) then false
  else re_match_id user_id.

(** [None] is the raised [ValueError]. *)
Definition sanitize_task_title (title : string) : option string :=
  match sanitize_string (Some title) (Some 500) with
  | Some sanitized =>
      if bool_decide (sanitized = "") then None else Some sanitized
  | None => None
  end.

Definition sanitize_task_description (description : option string)
  : option string :=
  sanitize_string description (Some 10000).

End validation.

(** Every character of a string is in the class of user ids. *)
Fixpoint id_chars (s : string) : bool :=
  match s with
  | EmptyString => true
  | String c rest => validation.id_char c && id_chars rest
  end.

(** ** [api/v1/auth.py] *)

Module auth_routes.







Record UserData := mkUserData {
  id : string;
  email : string;
  name : option string
}.




Section with_settings.
Context (BETTER_AUTH_URL : string).







(** [get_me]: the user of the verified token. *)
Definition get_me (current_user : User.t) : UserData :=
  mkUserData (User.id current_user) (User.email current_user)
    (User.name current_user).

End with_settings.
End auth_routes.





(** A store with one task, as the program leaves it after a save. *)
Module sample_store.
Import cli.



End sample_store.

(** * Properties *)

(** ** The model on the sample data *)

Example strip_padded : strip "  Padded  " = "Padded".
Proof. reflexivity. Qed.

Example create_body_trimmed :
  TaskCreateRequest.model_validate {[ "title" := Some "  Padded  " ]}
  = Valid (TaskCreateRequest.mk "Padded" None (Some "medium")).
Proof. by vm_compute. Qed.

Example create_body_blank_title :
  TaskCreateRequest.model_validate {[ "title" := Some "   " ]}
  = Invalid ["title"].
Proof. by vm_compute. Qed.

Example list_alice :
  fst (tasks.list_tasks "alice" sample.alice sample.store)
  = Ok (TaskListResponse "success" [sample.groceries] 1).
Proof. by vm_compute. Qed.

Example list_after_three_creates :
  fst (create_each sample.three_creates empty_store)
  = ["alice"; "bob"; "alice"]
  ∧ fst (TaskService.list_tasks "alice"
           (snd (create_each sample.three_creates empty_store)))
    = Ok [Task.mk 9%N "alice" "Second" None "pending" (Some "high") 120 121;
          Task.mk 7%N "alice" "Padded" None "pending" (Some "medium")
            100 100].
Proof. split; by vm_compute. Qed.

Example update_groceries :
  fst (TaskService.update_task "alice" 1%N sample.rename 40 sample.store)
  = Ok (Some (Task.mk 1%N "alice" "Milk" None "completed" (Some "medium")
                10 40)).
Proof. by vm_compute. Qed.

Example verify_current :
  fst (auth.verify_token sample.env_up "Bearer current" sample.cold)
  = Ok (User.mk "alice" "alice@example.com" (Some "Alice"))
  ∧ auth.fetches (snd (auth.verify_token sample.env_up "Bearer current"
                         sample.cold)) = 1%nat.
Proof. split; by vm_compute. Qed.

Example verify_rotated_key_refetched :
  fst (auth.verify_token sample.env_up "rotated" sample.warm)
  = Raise (HTTPException 401 "Invalid token key")
  ∧ auth.fetches (snd (auth.verify_token sample.env_up "rotated"
                         sample.warm)) = 1%nat.
Proof. split; by vm_compute. Qed.

(** ** The repository, run on a store *)

(** Settles a closed decidable proposition by evaluation. *)
Ltac by_compute :=
  match goal with
  | |- ?P => apply (bool_decide_unpack P); vm_compute; exact I
  end.

Section repository_facts.
Implicit Types (σ : Store) (l : list Task.t) (t : Task.t).
Implicit Types (user_id : string) (task_id : UUID).

Lemma find_by_id_run user_id task_id σ :
  TaskRepository.find_by_id user_id task_id σ
  = (Ok (snd <$> TaskRepository.first_scoped user_id task_id (rows σ)),
     logged σ (Call_find_by_id user_id task_id)).
Proof. reflexivity. Qed.

Lemma find_by_user_id_run user_id σ :
  TaskRepository.find_by_user_id user_id σ
  = (Ok (merge_sort TaskRepository.newest_first
           (filter (TaskRepository.listed user_id) (rows σ))),
     logged σ (Call_find_by_user_id user_id)).
Proof. reflexivity. Qed.

Lemma pk_unique_inj l t1 t2 :
  pk_unique l → t1 ∈ l → t2 ∈ l → Task.id t1 = Task.id t2 → t1 = t2.
Proof.
  intros Hnd [a Ha]%list_elem_of_lookup [b Hb]%list_elem_of_lookup Heq.
  assert (a = b) as ->.
  { eapply (NoDup_lookup _ a b (Task.id t1)); [exact Hnd| |].
    - by rewrite list_lookup_fmap, Ha.
    - by rewrite list_lookup_fmap, Hb, Heq. }
  congruence.
Qed.

Lemma first_scoped_found l user_id task_id i t :
  TaskRepository.first_scoped user_id task_id l = Some (i, t) →
  l !! i = Some t ∧ Task.id t = task_id ∧ Task.user_id t = user_id.
Proof.
  unfold TaskRepository.first_scoped.
  intros (? & [? ?] & _)%list_find_Some. done.
Qed.

Lemma first_scoped_absent l user_id task_id :
  TaskRepository.first_scoped user_id task_id l = None ↔
  ¬ ∃ t, t ∈ l ∧ Task.id t = task_id ∧ Task.user_id t = user_id.
Proof.
  unfold TaskRepository.first_scoped. rewrite list_find_None, Forall_forall.
  unfold TaskRepository.scoped. split.
  - intros Hall (t & Hin & Hid & Hu). by apply (Hall t Hin).
  - intros Hno t Hin [Hid Hu]. apply Hno. by exists t.
Qed.

Lemma first_scoped_unique l user_id task_id t :
  pk_unique l → t ∈ l → Task.id t = task_id → Task.user_id t = user_id →
  ∃ i, TaskRepository.first_scoped user_id task_id l = Some (i, t).
Proof.
  intros Hnd Hin Hid Hu.
  destruct (TaskRepository.first_scoped user_id task_id l)
    as [[i t']|] eqn:Hf.
  - exists i. apply first_scoped_found in Hf as (Hl & Hid' & _).
    apply list_elem_of_lookup_2 in Hl.
    by rewrite (pk_unique_inj l t t' Hnd Hin Hl) by congruence.
  - apply first_scoped_absent in Hf. destruct Hf. eauto.
Qed.

End repository_facts.

(** ** The service, run on a store *)

Section service_facts.
Implicit Types (σ : Store) (l : list Task.t) (t : Task.t).
Implicit Types (user_id : string) (task_id : UUID).

Lemma get_task_run user_id task_id σ :
  TaskService.get_task user_id task_id σ
  = (match TaskRepository.first_scoped user_id task_id (rows σ) with
     | Some (_, t) => Ok t
     | None => Raise (HTTPException 404 "Task not found")
     end,
     logged σ (Call_find_by_id user_id task_id)).
Proof.
  unfold TaskService.get_task, try_except, mbind, M_bind.
  rewrite find_by_id_run.
  by destruct (TaskRepository.first_scoped _ _ _) as [[i t]|].
Qed.

Lemma apply_update_data (updates : TaskUpdateRequest.t) (now : datetime) t :
  ∃ t', TaskRepository.apply_updates t (TaskService.update_data updates)
        = Some t'
        ∧ TaskRepository.set_updated_at now t' = partial_update updates now t.
Proof.
  destruct t as [i u ti de st pr ca ua].
  destruct updates as [[uti|] [[|c ude]|] [ust|] [upr|]];
    eexists; (split; [reflexivity|reflexivity]).
Qed.

Lemma update_task_run user_id task_id updates (now : datetime) σ :
  let σ1 := logged σ (Call_find_by_id user_id task_id) in
  TaskService.update_task user_id task_id updates now σ
  = match TaskRepository.first_scoped user_id task_id (rows σ) with
    | None => (Raise (HTTPException 404 "Task not found"), σ1)
    | Some (k, t) =>
        if bool_decide (Task.status t = "deleted") then
          (Raise (HTTPException 400 "Cannot update deleted task"), σ1)
        else if title_blank updates then
          (Raise (HTTPException 400 "Task title cannot be empty"), σ1)
        else if description_too_long updates then
          (Raise (HTTPException 400
                    "Task description cannot exceed 10,000 characters"), σ1)
        else
          (Ok (Some (partial_update updates now t)),
           mkStore (<[k := partial_update updates now t]> (rows σ))
             (calls σ ++ [Call_find_by_id user_id task_id]
                      ++ [Call_update user_id task_id]
                      ++ [Call_find_by_id user_id task_id]))
    end.
Proof.
  intros σ1. unfold TaskService.update_task, try_except, mbind, M_bind.
  rewrite find_by_id_run. subst σ1.
  destruct (TaskRepository.first_scoped _ _ _) as [[k t]|] eqn:Hf; [|done].
  cbn [fmap option_fmap option_map snd]. unfold raise_if at 1.
  case_bool_decide; [done|]. cbn [raise mret M_ret].
  unfold raise_if at 1. fold (title_blank updates).
  destruct (title_blank updates); [done|]. cbn [raise mret M_ret].
  unfold raise_if at 1. fold (description_too_long updates).
  destruct (description_too_long updates); [done|]. cbn [raise mret M_ret].
  unfold TaskRepository.update, mbind, M_bind.
  cbn [TaskRepository.log modify]. rewrite find_by_id_run.
  cbn [rows logged]. rewrite Hf. cbn [fmap option_fmap option_map snd].
  destruct (apply_update_data updates now t) as (t' & -> & Hset).
  unfold TaskRepository.commit_loaded, modify. cbn [rows logged calls].
  rewrite Hf, Hset. cbn [mret M_ret]. by rewrite <- !(assoc_L (++)).
Qed.

Lemma delete_task_run user_id task_id (now : datetime) σ :
  let σ1 := logged σ (Call_find_by_id user_id task_id) in
  TaskService.delete_task user_id task_id now σ
  = match TaskRepository.first_scoped user_id task_id (rows σ) with
    | None => (Raise (HTTPException 404 "Task not found"), σ1)
    | Some (k, t) =>
        if bool_decide (Task.status t = "deleted") then (Ok true, σ1)
        else
          (Ok true,
           mkStore (<[k := mark_deleted now t]> (rows σ))
             (calls σ ++ [Call_find_by_id user_id task_id]
                      ++ [Call_soft_delete user_id task_id]
                      ++ [Call_find_by_id user_id task_id]))
    end.
Proof.
  intros σ1. unfold TaskService.delete_task, try_except, mbind, M_bind.
  rewrite find_by_id_run. subst σ1.
  destruct (TaskRepository.first_scoped _ _ _) as [[k t]|] eqn:Hf; [|done].
  cbn [fmap option_fmap option_map snd].
  case_bool_decide; [done|].
  unfold TaskRepository.soft_delete, mbind, M_bind.
  cbn [TaskRepository.log modify]. rewrite find_by_id_run.
  cbn [rows logged]. rewrite Hf. cbn [fmap option_fmap option_map snd].
  unfold TaskRepository.commit_loaded, modify. cbn [rows logged calls].
  rewrite Hf. destruct t. cbn [mret M_ret]. by rewrite <- !(assoc_L (++)).
Qed.

End service_facts.

Lemma first_scoped_insert (l : list Task.t) user_id task_id k t t' :
  TaskRepository.first_scoped user_id task_id l = Some (k, t) →
  TaskRepository.scoped user_id task_id t' →
  TaskRepository.first_scoped user_id task_id (<[k := t']> l) = Some (k, t').
Proof.
  unfold TaskRepository.first_scoped.
  intros (Hk & _ & Hbefore)%list_find_Some Hs. apply list_find_Some.
  split_and!.
  - apply list_lookup_insert_eq. by eapply lookup_lt_Some.
  - done.
  - intros j y Hj Hlt. rewrite list_lookup_insert_ne in Hj by lia. eauto.
Qed.

(** ** Single get, update and delete *)

(** C5. On a table with unique primary keys, [get_task] returns a task
    exactly when that task is in the table under the requested id and
    owner, whatever its status, a soft-deleted task included; when no row
    has that id for that owner (it is another owner's, or nobody's) the
    answer is the one 404 "Task not found"; the rows are not changed. *)
Theorem C5_get_task_owner_scoped (σ : Store) (user_id : string)
    (task_id : UUID) :
  pk_unique (rows σ) →
  let out := TaskService.get_task user_id task_id σ in
  (∀ t, fst out = Ok t ↔
        t ∈ rows σ ∧ Task.id t = task_id ∧ Task.user_id t = user_id) ∧
  (∀ t, t ∈ rows σ → Task.id t = task_id → Task.user_id t = user_id →
        Task.status t = "deleted" → fst out = Ok t) ∧
  ((¬ ∃ t, t ∈ rows σ ∧ Task.id t = task_id ∧ Task.user_id t = user_id) →
   fst out = Raise (HTTPException 404 "Task not found")) ∧
  rows (snd out) = rows σ.
Proof.
  intros Hpk out. subst out. rewrite get_task_run. cbn [fst snd].
  assert (Hiff : ∀ t,
    match TaskRepository.first_scoped user_id task_id (rows σ) with
    | Some (_, t0) => Ok t0
    | None => Raise (HTTPException 404 "Task not found")
    end = Ok t ↔
    t ∈ rows σ ∧ Task.id t = task_id ∧ Task.user_id t = user_id).
  { intros t. split.
    - destruct (TaskRepository.first_scoped _ _ _) as [[k t0]|] eqn:Hf;
        [|done].
      intros [= ->]. apply first_scoped_found in Hf as (Hl & ? & ?).
      eauto using list_elem_of_lookup_2.
    - intros (Hin & Hid & Hu).
      by destruct (first_scoped_unique _ _ _ _ Hpk Hin Hid Hu) as [k ->]. }
  split_and!.
  - exact Hiff.
  - intros t Hin Hid Hu _. by apply Hiff.
  - intros Hno. apply first_scoped_absent in Hno. by rewrite Hno.
  - done.
Qed.

Lemma C5_witness :
  pk_unique (rows sample.store) ∧
  fst (TaskService.get_task "alice" 2%N sample.store) = Ok sample.archive.
Proof.
  assert (Hpk : pk_unique (rows sample.store)).
  { unfold pk_unique. by_compute. }
  split; [exact Hpk|].
  destruct (C5_get_task_owner_scoped sample.store "alice" 2%N Hpk)
    as (_ & Hdel & _).
  apply Hdel; [|reflexivity..].
  apply list_elem_of_further, list_elem_of_here.
Defined.

(** C7. When the task exists for the owner and its status is deleted,
    [update_task] fails 400 "Cannot update deleted task" and the table is
    left as it was, [updated_at] included; the same holds for the route
    handler called by the owner. *)
Theorem C7_update_deleted_rejected (σ : Store) (user_id : string)
    (task_id : UUID) (updates : TaskUpdateRequest.t) (now : datetime)
    (t : Task.t) :
  pk_unique (rows σ) →
  t ∈ rows σ → Task.id t = task_id → Task.user_id t = user_id →
  Task.status t = "deleted" →
  (fst (TaskService.update_task user_id task_id updates now σ)
   = Raise (HTTPException 400 "Cannot update deleted task") ∧
   rows (snd (TaskService.update_task user_id task_id updates now σ))
   = rows σ) ∧
  ∀ current_user, User.id current_user = user_id →
    fst (tasks.update_task user_id task_id updates current_user now σ)
    = Raise (HTTPException 400 "Cannot update deleted task") ∧
    rows (snd (tasks.update_task user_id task_id updates current_user now σ))
    = rows σ.
Proof.
  intros Hpk Hin Hid Hu Hst.
  destruct (first_scoped_unique _ _ _ _ Hpk Hin Hid Hu) as [k Hf].
  assert (Hrun : TaskService.update_task user_id task_id updates now σ
    = (Raise (HTTPException 400 "Cannot update deleted task"),
       logged σ (Call_find_by_id user_id task_id))).
  { rewrite update_task_run, Hf. by rewrite bool_decide_eq_true_2. }
  split; [by rewrite Hrun|].
  intros cu Hcu. unfold tasks.update_task, raise_if, mbind, M_bind.
  rewrite bool_decide_eq_false_2 by (by intros ?).
  cbn [mret M_ret]. by rewrite Hrun.
Qed.

Lemma C7_witness :
  fst (TaskService.update_task "alice" 2%N sample.rename 99 sample.store)
  = Raise (HTTPException 400 "Cannot update deleted task") ∧
  rows (snd (TaskService.update_task "alice" 2%N sample.rename 99
               sample.store))
  = rows sample.store.
Proof.
  refine (proj1 (C7_update_deleted_rejected sample.store "alice" 2%N
                   sample.rename 99 sample.archive _ _ _ _ _)).
  - unfold pk_unique. by_compute.
  - apply list_elem_of_further, list_elem_of_here.
  - reflexivity.
  - reflexivity.
  - reflexivity.
Defined.

(** C8. [delete_task] on a table with unique primary keys: for an id
    absent for the owner it fails 404 and writes nothing; for an owned
    task already deleted it returns success and writes nothing; for an
    owned task not yet deleted it returns success and rewrites that one
    row with status "deleted" and [updated_at] set to the current time;
    in both owned cases a second delete returns success again, writes
    nothing, and the row still has status "deleted". *)
Theorem C8_soft_delete_idempotent (σ : Store) (user_id : string)
    (task_id : UUID) (now : datetime) :
  pk_unique (rows σ) →
  let out := TaskService.delete_task user_id task_id now σ in
  ((¬ ∃ t, t ∈ rows σ ∧ Task.id t = task_id ∧ Task.user_id t = user_id) →
   fst out = Raise (HTTPException 404 "Task not found") ∧
   rows (snd out) = rows σ) ∧
  ∀ t, t ∈ rows σ → Task.id t = task_id → Task.user_id t = user_id →
    (Task.status t = "deleted" →
     fst out = Ok true ∧ rows (snd out) = rows σ) ∧
    (Task.status t ≠ "deleted" →
     ∃ k, rows σ !! k = Some t ∧ fst out = Ok true ∧
          rows (snd out) = <[k := mark_deleted now t]> (rows σ)) ∧
    (∀ now',
       let again := TaskService.delete_task user_id task_id now' (snd out) in
       fst out = Ok true ∧ fst again = Ok true ∧
       rows (snd again) = rows (snd out) ∧
       ∃ t', t' ∈ rows (snd again) ∧ Task.id t' = task_id ∧
             Task.user_id t' = user_id ∧ Task.status t' = "deleted").
Proof.
  intros Hpk out. subst out. rewrite delete_task_run. split.
  { intros Hno. apply first_scoped_absent in Hno. by rewrite Hno. }
  intros t Hin Hid Hu.
  destruct (first_scoped_unique _ _ _ _ Hpk Hin Hid Hu) as [k Hf].
  rewrite Hf. pose proof (first_scoped_found _ _ _ _ _ Hf) as (Hk & _ & _).
  split_and!.
  - intros Hst. by rewrite bool_decide_eq_true_2.
  - intros Hst. rewrite bool_decide_eq_false_2 by done. eauto.
  - intros now' again. subst again. rewrite delete_task_run.
    case_bool_decide as Hst.
    + cbn [fst snd rows logged]. rewrite Hf.
      rewrite bool_decide_eq_true_2 by done. cbn [fst snd rows logged].
      split_and!; [done..|]. by exists t.
    + cbn [fst snd rows].
      rewrite (first_scoped_insert _ _ _ _ _ (mark_deleted now t) Hf)
        by (by split).
      rewrite bool_decide_eq_true_2 by done. cbn [fst snd rows logged].
      split_and!; [done..|]. exists (mark_deleted now t).
      split_and!; [|done..].
      apply list_elem_of_lookup. exists k. apply list_lookup_insert_eq.
      by eapply lookup_lt_Some.
Qed.

Lemma C8_witness :
  fst (TaskService.delete_task "alice" 1%N 99 sample.store) = Ok true ∧
  fst (TaskService.delete_task "alice" 1%N 120
         (snd (TaskService.delete_task "alice" 1%N 99 sample.store)))
  = Ok true.
Proof.
  assert (Hpk : pk_unique (rows sample.store)).
  { unfold pk_unique. by_compute. }
  destruct (C8_soft_delete_idempotent sample.store "alice" 1%N 99 Hpk)
    as (_ & Hown).
  destruct (Hown sample.groceries) as (_ & _ & Htwice);
    [apply list_elem_of_here|reflexivity..|].
  destruct (Htwice 120) as (H1 & H2 & _). by split.
Defined.

(** ** Creation and the identity of rows *)

Lemma create_task_run (user_id : string) (req : TaskCreateRequest.t)
    (d : Defaults) (σ : Store) :
  TaskService.create_task user_id req d σ
  = match create_rejected req with
    | Some detail => (Raise (HTTPException 400 detail), σ)
    | None =>
        if bool_decide (default_id d ∈ Task.id <$> rows σ) then
          (Raise (HTTPException 500 "Failed to create task"),
           logged σ (Call_create user_id))
        else
          (Ok (new_task user_id req d),
           mkStore (rows σ ++ [new_task user_id req d])
             (calls σ ++ [Call_create user_id]))
    end.
Proof.
  unfold TaskService.create_task, create_rejected, mbind, M_bind.
  unfold raise_if at 1.
  destruct (bool_decide _ || _); [done|]. cbn [mret M_ret].
  unfold raise_if at 1.
  destruct (truthy _ && _); [done|]. cbn [mret M_ret].
  unfold try_except, TaskRepository.create, mbind, M_bind.
  cbn [TaskRepository.log modify get].
  change (dict_get _ "title")
    with (Some (Some (strip (TaskCreateRequest.title req)))).
  cbn [rows logged]. fold (logged σ (Call_create user_id)).
  case_bool_decide; [done|]. reflexivity.
Qed.

Lemma identity_insert (l : list Task.t) k t t' :
  l !! k = Some t → identity t' = identity t →
  identity <$> <[k := t']> l = identity <$> l.
Proof.
  intros Hk Hid. rewrite list_fmap_insert, Hid.
  apply list_insert_id. by rewrite list_lookup_fmap, Hk.
Qed.

Lemma list_tasks_rows user_id σ :
  rows (snd (TaskService.list_tasks user_id σ)) = rows σ.
Proof.
  unfold TaskService.list_tasks, try_except.
  by rewrite find_by_user_id_run.
Qed.

Lemma get_task_rows user_id task_id σ :
  rows (snd (TaskService.get_task user_id task_id σ)) = rows σ.
Proof. by rewrite get_task_run. Qed.

Lemma create_task_rows user_id req d σ :
  grows σ (snd (TaskService.create_task user_id req d σ)).
Proof.
  unfold grows. rewrite create_task_run. destruct (create_rejected req); [done|].
  case_bool_decide; [done|]. cbn [snd rows]. rewrite fmap_app.
  by apply prefix_app_r.
Qed.

Lemma update_task_rows user_id task_id updates now σ :
  identity <$> rows (snd (TaskService.update_task user_id task_id updates
                            now σ))
  = identity <$> rows σ.
Proof.
  rewrite update_task_run.
  destruct (TaskRepository.first_scoped _ _ _) as [[k t]|] eqn:Hf; [|done].
  apply first_scoped_found in Hf as (Hk & _).
  repeat (case_match; [done|]).
  cbn [snd rows]. by apply identity_insert with t.
Qed.

Lemma delete_task_rows user_id task_id now σ :
  identity <$> rows (snd (TaskService.delete_task user_id task_id now σ))
  = identity <$> rows σ.
Proof.
  rewrite delete_task_run.
  destruct (TaskRepository.first_scoped _ _ _) as [[k t]|] eqn:Hf; [|done].
  apply first_scoped_found in Hf as (Hk & _).
  case_match; [done|].
  cbn [snd rows]. by apply identity_insert with t.
Qed.

#[local] Instance grows_preorder : PreOrder grows.
Proof.
  split.
  - intros σ. by unfold grows.
  - intros σ1 σ2 σ3. unfold grows. by etrans.
Qed.

#[local] Instance pk_kept_preorder : PreOrder pk_kept.
Proof. split; unfold pk_kept; [intros σ|intros σ1 σ2 σ3]; auto. Qed.

Lemma grows_same_identity σ σ' :
  identity <$> rows σ' = identity <$> rows σ → grows σ σ'.
Proof. unfold grows. by intros ->. Qed.

Lemma pk_kept_same_identity σ σ' :
  identity <$> rows σ' = identity <$> rows σ → pk_kept σ σ'.
Proof.
  intros Hid. unfold pk_kept, pk_unique.
  assert (Hids : ∀ l : list Task.t,
            Task.id <$> l = (λ p, p.1.1) <$> (identity <$> l)).
  { intros l. by rewrite <- list_fmap_compose. }
  by rewrite !Hids, Hid.
Qed.

Lemma create_task_pk_kept user_id req d σ :
  pk_kept σ (snd (TaskService.create_task user_id req d σ)).
Proof.
  unfold pk_kept, pk_unique. rewrite create_task_run.
  destruct (create_rejected req); [done|].
  case_bool_decide as Hfresh; [done|]. cbn [snd rows]. intros Hnd.
  rewrite fmap_app. apply NoDup_app. split_and!; [done| |apply NoDup_singleton].
  intros i Hi ->%list_elem_of_singleton. done.
Qed.

(** What every service call does to the store, a handler does too. *)
Section handlers_preserve.
Context (R : relation Store) `{!PreOrder R}.
Hypothesis list_R : ∀ u σ, R σ (snd (TaskService.list_tasks u σ)).
Hypothesis get_R : ∀ u i σ, R σ (snd (TaskService.get_task u i σ)).
Hypothesis create_R :
  ∀ u req d σ, R σ (snd (TaskService.create_task u req d σ)).
Hypothesis update_R :
  ∀ u i req now σ, R σ (snd (TaskService.update_task u i req now σ)).
Hypothesis delete_R :
  ∀ u i now σ, R σ (snd (TaskService.delete_task u i now σ)).

Lemma bind_preserves {A B} (m : M Store A) (k : A → M Store B) :
  (∀ σ, R σ (snd (m σ))) → (∀ a σ, R σ (snd (k a σ))) →
  ∀ σ, R σ (snd ((m ≫= k) σ)).
Proof.
  intros Hm Hk σ. unfold mbind, M_bind. specialize (Hm σ).
  destruct (m σ) as [[a|e] σ']; cbn [snd] in *; [|done].
  by etrans.
Qed.

Lemma raise_if_preserves (cond : bool) e σ :
  R σ (snd (raise_if (Σ := Store) cond e σ)).
Proof. by destruct cond. Qed.

Lemma handle_preserves (r : Request) (σ : Store) : R σ (snd (handle r σ)).
Proof.
  revert σ.
  destruct r as [u cu|u i cu|u req cu d|u i req cu now|u i cu now];
    cbn [handle];
    [unfold tasks.list_tasks|unfold tasks.get_task|unfold tasks.create_task
    |unfold tasks.update_task|unfold tasks.delete_task];
    (apply bind_preserves; [intros σ; apply raise_if_preserves|intros _]);
    (apply bind_preserves; [intros σ|intros a]);
    try done.
  apply bind_preserves; [intros σ|done]. by destruct a.
Qed.

Lemma handle_all_preserves (rs : list Request) (σ : Store) :
  R σ (handle_all rs σ).
Proof.
  revert σ. induction rs as [|r rs IH]; intros σ; [done|].
  cbn. etrans; [apply handle_preserves|apply IH].
Qed.

End handlers_preserve.

Lemma handle_all_grows (rs : list Request) (σ : Store) :
  grows σ (handle_all rs σ).
Proof.
  apply (handle_all_preserves grows).
  - intros. apply grows_same_identity. by rewrite list_tasks_rows.
  - intros. apply grows_same_identity. by rewrite get_task_rows.
  - intros. apply create_task_rows.
  - intros. apply grows_same_identity, update_task_rows.
  - intros. apply grows_same_identity, delete_task_rows.
Qed.

(** The primary key stays unique over any sequence of requests. *)
Lemma handle_all_pk_unique (rs : list Request) (σ : Store) :
  pk_unique (rows σ) → pk_unique (rows (handle_all rs σ)).
Proof.
  apply (handle_all_preserves pk_kept).
  - intros. apply pk_kept_same_identity. by rewrite list_tasks_rows.
  - intros. apply pk_kept_same_identity. by rewrite get_task_rows.
  - intros. apply create_task_pk_kept.
  - intros. apply pk_kept_same_identity, update_task_rows.
  - intros. apply pk_kept_same_identity, delete_task_rows.
Qed.

(** C9. A partial update returns and stores exactly the old row with
    the provided ones among title, description, status and priority
    replaced and [updated_at] set to the current time, every other row
    and every field not provided left as it was; an update that does not
    succeed writes nothing. Over any sequence of list, get, create,
    update and delete requests every row keeps its position, its [id],
    its [user_id] and its [created_at]. *)
Theorem C9_identity_fields_preserved :
  (∀ σ user_id task_id updates now,
     let out := TaskService.update_task user_id task_id updates now σ in
     match fst out with
     | Ok (Some t') =>
         ∃ k t,
           TaskRepository.first_scoped user_id task_id (rows σ) = Some (k, t)
           ∧ t' = partial_update updates now t
           ∧ rows (snd out) = <[k := t']> (rows σ)
     | _ => rows (snd out) = rows σ
     end) ∧
  (∀ rs σ k t,
     rows σ !! k = Some t →
     ∃ t', rows (handle_all rs σ) !! k = Some t'
           ∧ Task.id t' = Task.id t
           ∧ Task.user_id t' = Task.user_id t
           ∧ Task.created_at t' = Task.created_at t).
Proof.
  split.
  - intros σ user_id task_id updates now out. subst out.
    rewrite update_task_run.
    destruct (TaskRepository.first_scoped _ _ _) as [[k t]|] eqn:Hf; [|done].
    case_bool_decide; [done|].
    destruct (title_blank updates); [done|].
    destruct (description_too_long updates); [done|].
    cbn [fst snd rows]. by exists k, t.
  - intros rs σ k t Hk.
    pose proof (handle_all_grows rs σ) as Hg. unfold grows in Hg.
    assert (Hl : (identity <$> rows σ) !! k = Some (identity t))
      by (by rewrite list_lookup_fmap, Hk).
    eapply prefix_lookup_Some in Hl; [|exact Hg].
    rewrite list_lookup_fmap in Hl.
    destruct (rows (handle_all rs σ) !! k) as [t'|]; [|done].
    exists t'. unfold identity in Hl. by inversion Hl.
Qed.

Lemma C9_witness :
  ∃ t', rows (handle_all
                [UpdateTask "alice" 1%N sample.rename sample.alice 40;
                 DeleteTask "alice" 1%N sample.alice 50]
                sample.store) !! 0%nat = Some t'
        ∧ Task.id t' = 1%N ∧ Task.user_id t' = "alice"
        ∧ Task.created_at t' = 10.
Proof.
  exact (proj2 C9_identity_fields_preserved
           [UpdateTask "alice" 1%N sample.rename sample.alice 40;
            DeleteTask "alice" 1%N sample.alice 50]
           sample.store 0%nat sample.groceries eq_refl).
Defined.

(** ** The ownership gate *)

(** C1. Whichever of the five task routes is called, when the
    authenticated user's id differs from the owner in the path the
    handler raises 403 and leaves the store exactly as it found it: no
    repository call is logged and no row is read or written. *)
Theorem C1_ownership_checked_first (r : Request) (σ : Store) :
  User.id (caller r) ≠ path_owner r →
  ∃ detail, handle r σ = (Raise (HTTPException 403 detail), σ).
Proof.
  intros Hne.
  destruct r as [u cu|u i cu|u req cu d|u i req cu now|u i cu now];
    cbn [handle caller path_owner] in *;
    [unfold tasks.list_tasks|unfold tasks.get_task|unfold tasks.create_task
    |unfold tasks.update_task|unfold tasks.delete_task];
    unfold raise_if, mbind, M_bind;
    rewrite bool_decide_eq_true_2 by done; eauto.
Qed.

(** On the POST and PATCH routes the body is validated before the
    handler runs: with a mismatching owner the answer is the validation
    failure or the 403, and the store is untouched either way. *)
Lemma routes_mismatch_store_untouched (user_id : string) (task_id : UUID)
    (body : json) (current_user : User.t) (d : Defaults) (now : datetime)
    (σ : Store) :
  User.id current_user ≠ user_id →
  snd (tasks.post_route user_id body current_user d σ) = σ
  ∧ snd (tasks.patch_route user_id task_id body current_user now σ) = σ
  ∧ (∀ req, TaskUpdateRequest.model_validate body = Valid req →
       ∃ detail,
         fst (tasks.patch_route user_id task_id body current_user now σ)
         = Raise (HTTPException 403 detail)).
Proof.
  intros Hne.
  assert (Hpost : ∀ req, tasks.create_task user_id req current_user d σ
            = (Raise (HTTPException 403
                        "You can only create tasks for yourself"), σ)).
  { intros req. unfold tasks.create_task, raise_if, mbind, M_bind.
    by rewrite bool_decide_eq_true_2. }
  assert (Hpatch : ∀ req,
            tasks.update_task user_id task_id req current_user now σ
            = (Raise (HTTPException 403
                        "You can only update your own tasks"), σ)).
  { intros req. unfold tasks.update_task, raise_if, mbind, M_bind.
    by rewrite bool_decide_eq_true_2. }
  unfold tasks.post_route, tasks.patch_route. split_and!.
  - destruct (TaskCreateRequest.model_validate body) as [req|fields];
      [by rewrite Hpost|done].
  - destruct (TaskUpdateRequest.model_validate body) as [req|fields];
      [by rewrite Hpatch|done].
  - intros req ->. rewrite Hpatch. eauto.
Qed.

Lemma C1_witness :
  ∃ detail,
    handle (DeleteTask "bob" 3%N sample.alice 50) sample.store
    = (Raise (HTTPException 403 detail), sample.store).
Proof.
  apply (C1_ownership_checked_first
           (DeleteTask "bob" 3%N sample.alice 50) sample.store).
  cbn. by_compute.
Defined.

(** ** Listing *)

#[local] Instance newest_first_trans : Transitive TaskRepository.newest_first.
Proof. unfold TaskRepository.newest_first. intros a b c ??. lia. Qed.

#[local] Instance newest_first_total : Total TaskRepository.newest_first.
Proof. unfold TaskRepository.newest_first. intros a b. lia. Qed.

Lemma list_tasks_run user_id σ :
  TaskService.list_tasks user_id σ
  = (Ok (merge_sort TaskRepository.newest_first
           (filter (TaskRepository.listed user_id) (rows σ))),
     logged σ (Call_find_by_user_id user_id)).
Proof.
  unfold TaskService.list_tasks, try_except.
  by rewrite find_by_user_id_run.
Qed.

Lemma tasks_create_task_run (cu : User.t) user_id req d σ :
  User.id cu = user_id →
  tasks.create_task user_id req cu d σ
  = match TaskService.create_task user_id req d σ with
    | (Ok task, σ') =>
        (Ok (TaskSingleResponse "success" task
               (Some "Task created successfully")), σ')
    | (Raise e, σ') => (Raise e, σ')
    end.
Proof.
  intros Hcu. unfold tasks.create_task, raise_if, mbind, M_bind.
  rewrite bool_decide_eq_false_2 by (by intros ?). cbn [mret M_ret].
  by destruct (TaskService.create_task _ _ _ _) as [[task|e] σ'].
Qed.

(** What a run of create requests adds to the table. *)
Lemma create_each_rows (cs : list CreateCall) (σ : Store) :
  ∃ new,
    rows (snd (create_each cs σ)) = rows σ ++ new
    ∧ Forall (λ t, Task.status t = "pending") new
    ∧ Task.user_id <$> new = fst (create_each cs σ).
Proof.
  revert σ. induction cs as [|c cs IH]; intros σ.
  { exists []. by rewrite app_nil_r. }
  cbn [create_each]. rewrite tasks_create_task_run by done.
  rewrite create_task_run.
  destruct (create_rejected _); [apply IH|].
  case_bool_decide.
  { destruct (IH (logged σ (Call_create (cc_owner c)))) as (new & ? & ? & ?).
    by exists new. }
  match goal with
  | |- context [create_each cs ?s] =>
      destruct (IH s) as (new & Hrows & Hpend & Hown);
      destruct (create_each cs s) as [owners σ'']
  end.
  cbn [fst snd rows] in *.
  exists (new_task (cc_owner c) (cc_request c) (cc_defaults c) :: new).
  split_and!.
  - by rewrite Hrows, <- (assoc_L (++)).
  - by constructor.
  - by rewrite fmap_cons, Hown.
Qed.

Lemma listed_pending_length (A : string) (new : list Task.t) :
  Forall (λ t, Task.status t = "pending") new →
  length (filter (TaskRepository.listed A) new)
  = length (filter (λ o, o = A) (Task.user_id <$> new)).
Proof.
  induction 1 as [|t new Hst _ IH]; [done|].
  rewrite fmap_cons, !filter_cons.
  destruct (decide (Task.user_id t = A)) as [Hu|Hu].
  - rewrite decide_True by (split; [done|by rewrite Hst]).
    cbn. by rewrite IH.
  - rewrite decide_False by (by intros [? _]). done.
Qed.

(** C6. For every store, [list_tasks] returns the rows of the owner
    whose status is not deleted, each exactly as often as the table
    holds it and no other row, in non-increasing order of
    [created_at]. After any run of create requests on an empty table,
    the list of an owner has as many tasks as requests of that owner
    were answered with a created task, and all of them are the
    owner's. *)
Theorem C6_list_owner_scoped :
  (∀ σ user_id, ∃ tasks,
     fst (TaskService.list_tasks user_id σ) = Ok tasks
     ∧ tasks ≡ₚ filter (TaskRepository.listed user_id) (rows σ)
     ∧ (∀ t, t ∈ tasks ↔
             t ∈ rows σ ∧ Task.user_id t = user_id
             ∧ Task.status t ≠ "deleted")
     ∧ StronglySorted (λ a b, Task.created_at b ≤ Task.created_at a) tasks)
  ∧
  (∀ cs A, ∃ tasks,
     fst (TaskService.list_tasks A (snd (create_each cs empty_store)))
     = Ok tasks
     ∧ length tasks
       = length (filter (λ o, o = A) (fst (create_each cs empty_store)))
     ∧ Forall (λ t, Task.user_id t = A) tasks).
Proof.
  split.
  - intros σ user_id. rewrite list_tasks_run. eexists. split; [done|].
    split_and!.
    + apply merge_sort_Permutation.
    + intros t. rewrite merge_sort_Permutation, list_elem_of_filter.
      unfold TaskRepository.listed. tauto.
    + apply (StronglySorted_merge_sort TaskRepository.newest_first).
  - intros cs A. rewrite list_tasks_run. eexists. split; [done|].
    destruct (create_each_rows cs empty_store) as (new & Hrows & Hpend & Hown).
    rewrite Hrows. cbn [rows empty_store app]. split.
    + rewrite merge_sort_Permutation, <- Hown.
      by apply listed_pending_length.
    + apply Forall_forall. intros t.
      rewrite merge_sort_Permutation, list_elem_of_filter.
      by intros [[? _] _].
Qed.

(** ** Validation of the status of an update *)

Lemma validate_status_accepts (s : string) :
  TaskUpdateRequest.validate_status (Some s) = Some (Some s) ↔
  s ∈ ["pending"; "in-progress"; "completed"].
Proof.
  unfold TaskUpdateRequest.validate_status.
  case_bool_decide as Hs; split; done.
Qed.

(** C10. The status validator of the update schema knows the spelling
    "in-progress" only: the status "in_progress" is rejected, so a PATCH
    that sets it is answered as a validation failure and writes nothing,
    while "in-progress" passes. *)
Theorem C10_in_progress_rejected :
  TaskUpdateRequest.validate_status (Some "in_progress") = None
  ∧ tasks.patch_route "alice" 1%N {[ "status" := Some "in_progress" ]}
      sample.alice 40 sample.store
    = (Raise (RequestValidationError ["status"]), sample.store)
  ∧ TaskUpdateRequest.validate_status (Some "in-progress")
    = Some (Some "in-progress").
Proof. split_and!; by vm_compute. Qed.

(** ** The JWKS cache *)

Section auth_facts.
Context (env : Env).
Implicit Types (σ : auth.State) (token : string) (t : JWT).

Lemma fetch_jwks_run (now : Z) cache (n f : nat) :
  auth.fetch_jwks env now (auth.mkState cache n f)
  = match jwks_endpoint env f with
    | FetchOk jwks =>
        (Ok (auth.build_keys jwks),
         auth.mkState
           (Some (auth.mk_JWKSCache (auth.build_keys jwks)
                    (now + auth.JWKS_CACHE_TTL)))
           n (S f))
    | FetchError => (Raise HTTPError, auth.mkState cache n (S f))
    | FetchMalformed m =>
        (Raise (malformed_exn m), auth.mkState cache n (S f))
    end.
Proof.
  unfold auth.fetch_jwks, auth.client_get, mbind, M_bind.
  cbn [auth._cache auth.ticks auth.fetches].
  by destruct (jwks_endpoint env f).
Qed.

Lemma get_jwks_run cache (n f : nat) :
  auth._get_jwks env (auth.mkState cache n f)
  = match cache with
    | Some c =>
        if bool_decide (time env n < auth.expires_at c)
        then (Ok (auth.keys c), auth.mkState cache (S n) f)
        else auth.fetch_jwks env (time env n) (auth.mkState cache (S n) f)
    | None => auth.fetch_jwks env (time env n) (auth.mkState cache (S n) f)
    end.
Proof.
  unfold auth._get_jwks, auth.time_time, mbind, M_bind.
  cbn [auth._cache auth.ticks auth.fetches get].
  destruct cache as [c|]; [|done]. by case_bool_decide.
Qed.

(** A failed lookup is a failed fetch or a fetch of something that is
    not a key set, and leaves the cache alone. *)
Lemma get_jwks_failed σ e σ' :
  auth._get_jwks env σ = (Raise e, σ') →
  fetch_failure (jwks_endpoint env (auth.fetches σ)) = Some e
  ∧ σ' = auth.mkState (auth._cache σ) (S (auth.ticks σ))
           (S (auth.fetches σ)).
Proof.
  destruct σ as [cache n f]. rewrite get_jwks_run.
  cbn [auth._cache auth.ticks auth.fetches].
  destruct cache as [c|]; [case_bool_decide; [done|]|];
    rewrite fetch_jwks_run;
    destruct (jwks_endpoint env f); intros ?; by simplify_eq.
Qed.

(** The exception of a failed fetch is [httpx.HTTPError] or one that no
    clause of [verify_token] catches. *)
Lemma fetch_failure_on_error o e σ :
  fetch_failure o = Some e →
  auth.on_error e σ = (Raise (surfaced e), σ).
Proof. destruct o as [|jwks|[]]; cbn; intros ?; by simplify_eq. Qed.

(** A lookup on an empty cache whose fetch fails. *)
Lemma get_jwks_cold_down (n f : nat) :
  jwks_endpoint env f = FetchError →
  auth._get_jwks env (auth.mkState None n f)
  = (Raise HTTPError, auth.mkState None (S n) (S f)).
Proof. intros Hdown. by rewrite get_jwks_run, fetch_jwks_run, Hdown. Qed.

(** A lookup on an empty cache that is answered with something that
    is not a key set. *)
Lemma get_jwks_cold_malformed (n f : nat) m :
  jwks_endpoint env f = FetchMalformed m →
  auth._get_jwks env (auth.mkState None n f)
  = (Raise (malformed_exn m), auth.mkState None (S n) (S f)).
Proof. intros Hm. by rewrite get_jwks_run, fetch_jwks_run, Hm. Qed.

(** A lookup on an empty cache whose fetch succeeds. *)
Lemma get_jwks_cold_up (n f : nat) jwks :
  jwks_endpoint env f = FetchOk jwks →
  auth._get_jwks env (auth.mkState None n f)
  = (Ok (auth.build_keys jwks),
     auth.mkState
       (Some (auth.mk_JWKSCache (auth.build_keys jwks)
                (time env n + auth.JWKS_CACHE_TTL)))
       (S n) (S f)).
Proof. intros Hup. by rewrite get_jwks_run, fetch_jwks_run, Hup. Qed.

(** A lookup never sends more than one request. *)
Lemma get_jwks_fetches σ :
  (auth.fetches (snd (auth._get_jwks env σ)) ≤ S (auth.fetches σ))%nat.
Proof.
  destruct σ as [cache n f]. rewrite get_jwks_run.
  cbn [auth._cache auth.ticks auth.fetches].
  destruct cache as [c|]; [case_bool_decide; [cbn; lia|]|];
    rewrite fetch_jwks_run; destruct (jwks_endpoint env f); cbn; lia.
Qed.

(** ** Token verification, gate by gate *)

(** The first gate is the key-set lookup: when it fails, the answer is
    503, or the exception of reading an answer that is no key set,
    whatever the token is. *)
Lemma verify_token_lookup_failed token σ e σ1 :
  auth._get_jwks env σ = (Raise e, σ1) →
  auth.verify_token env token σ = (Raise (surfaced e), σ1).
Proof.
  intros Hget. pose proof (get_jwks_failed _ _ _ Hget) as [Hf _].
  unfold auth.verify_token, try_except, mbind, M_bind. rewrite Hget.
  by apply (fetch_failure_on_error _ _ _ Hf).
Qed.

(** The second gate is the parse of the header. *)
Lemma verify_token_unparsable token σ public_keys σ1 :
  auth._get_jwks env σ = (Ok public_keys, σ1) →
  parse env (auth.strip_bearer token) = None →
  auth.verify_token env token σ
  = (Raise (HTTPException 401 "Invalid token"), σ1).
Proof.
  intros Hget Hparse.
  unfold auth.verify_token, try_except, mbind, M_bind. rewrite Hget.
  unfold auth.get_unverified_header. by rewrite Hparse.
Qed.

(** An unknown key identifier: clear the cache, look up again. *)
Lemma verify_token_unknown_kid token σ public_keys σ1 t :
  auth._get_jwks env σ = (Ok public_keys, σ1) →
  parse env (auth.strip_bearer token) = Some t →
  auth.unknown_kid (kid (header t)) public_keys = true →
  jwks_endpoint env (auth.fetches σ1) = FetchError →
  auth.verify_token env token σ
  = (Raise (HTTPException 503 "Auth server unavailable. Please try again."),
     auth.mkState None (S (auth.ticks σ1)) (S (auth.fetches σ1))).
Proof.
  intros Hget Hparse Hunk Hdown.
  unfold auth.verify_token, try_except, mbind, M_bind. rewrite Hget.
  unfold auth.get_unverified_header. rewrite Hparse. cbn [mret M_ret].
  rewrite Hunk. unfold auth.clear_jwks_cache, auth.set_cache, modify.
  cbn [auth.ticks auth.fetches]. by rewrite get_jwks_cold_down.
Qed.

(** A known key identifier: the token goes to [decode] with the cached
    key, and the state is the one the lookup left. *)
Lemma verify_token_known_kid token σ public_keys σ1 t k key :
  auth._get_jwks env σ = (Ok public_keys, σ1) →
  parse env (auth.strip_bearer token) = Some t →
  kid (header t) = Some k → k ≠ "" → public_keys !! k = Some key →
  auth.verify_token env token σ
  = try_except
      (payload ← auth.decode env (auth.strip_bearer token) key;
       raise_if (negb (truthy (sub payload)))
         (HTTPException 401 "Invalid token: missing user id");;
       mret (User.mk (default "" (sub payload))
               (default "" (email payload)) (name payload)))
      auth.on_error σ1.
Proof.
  intros Hget Hparse Hkid Hk Hkey.
  assert (Hknown : auth.unknown_kid (Some k) public_keys = false).
  { unfold auth.unknown_kid, truthy. cbn.
    rewrite !bool_decide_eq_false_2; [done|by rewrite Hkey|done]. }
  unfold auth.verify_token, try_except, mbind at 1 2 3 4, M_bind.
  rewrite Hget. unfold auth.get_unverified_header. rewrite Hparse.
  cbn [mret M_ret]. rewrite Hkid, Hknown. cbn [mret M_ret option_bind mbind].
  by rewrite Hkey.
Qed.

(** [decode] on a well-formed token: algorithm, signature, then the
    time claims against a fresh reading of the clock. *)
Lemma decode_run token key σ t :
  parse env token = Some t →
  auth.decode env token key σ
  = if bool_decide (alg (header t) ≠ "RS256") then
      (Raise (InvalidTokenError InvalidAlgorithmError), σ)
    else if bool_decide (signed_by t ≠ Some key) then
      (Raise (InvalidTokenError InvalidSignatureError), σ)
    else
      let σ' := auth.mkState (auth._cache σ) (S (auth.ticks σ))
                  (auth.fetches σ) in
      if match iat (payload t) with
         | Some i => time env (auth.ticks σ) <? i
         | None => false
         end
      then (Raise (InvalidTokenError ImmatureSignatureError), σ')
      else if match nbf (payload t) with
              | Some n => time env (auth.ticks σ) <? n
              | None => false
              end
      then (Raise (InvalidTokenError ImmatureSignatureError), σ')
      else if match exp (payload t) with
              | Some e => e <=? time env (auth.ticks σ)
              | None => false
              end
      then (Raise (InvalidTokenError ExpiredSignatureError), σ')
      else (Ok (payload t), σ').
Proof.
  intros Hparse. unfold auth.decode. rewrite Hparse.
  unfold raise_if, auth.time_time, mbind, M_bind.
  repeat case_bool_decide; try done. cbn [mret M_ret].
  destruct (match iat (payload t) with Some _ => _ | None => _ end); [done|].
  destruct (match nbf (payload t) with Some _ => _ | None => _ end); [done|].
  by destruct (match exp (payload t) with Some _ => _ | None => _ end).
Qed.

(** A time claim that is absent or not after the clock passes its
    check. *)
Lemma not_in_future (claim : option Z) (now : Z) :
  (∀ c, claim = Some c → c ≤ now) →
  match claim with Some c => now <? c | None => false end = false.
Proof.
  destruct claim as [c|]; [|done]. intros Hc.
  apply Z.ltb_ge. by apply Hc.
Qed.

End auth_facts.

Section verification.
Context (env : Env).
Implicit Types (σ : auth.State) (token : string) (t : JWT).

(** C3, as the code has it. Verification first looks the key set up in
    the cache, which sends a request when the cache is empty or out of
    date, and answers 503 if that request fails, whatever the token (an
    answer that is not a key set raises past the [except] clauses).
    Only then is the header parsed: an unparsable token is answered 401
    "Invalid token" in the state the lookup left, with no further
    request; a header without a (non-empty) key identifier clears the
    cache and sends exactly one more request, after which the answer is
    401 "Invalid token key", or 503 if that request failed. *)
Theorem C3_lookup_before_header token σ :
  (∀ e σ1,
     auth._get_jwks env σ = (Raise e, σ1) →
     match jwks_endpoint env (auth.fetches σ) with
     | FetchError =>
         auth.verify_token env token σ
         = (Raise (HTTPException 503
                     "Auth server unavailable. Please try again."), σ1)
     | FetchMalformed m =>
         auth.verify_token env token σ = (Raise (malformed_exn m), σ1)
     | FetchOk _ => False
     end)
  ∧
  (∀ public_keys σ1,
     auth._get_jwks env σ = (Ok public_keys, σ1) →
     (parse env (auth.strip_bearer token) = None →
      auth.verify_token env token σ
      = (Raise (HTTPException 401 "Invalid token"), σ1))
     ∧
     (∀ t,
        parse env (auth.strip_bearer token) = Some t →
        truthy (kid (header t)) = false →
        auth.verify_token env token σ
        = match jwks_endpoint env (auth.fetches σ1) with
          | FetchOk jwks =>
              (Raise (HTTPException 401 "Invalid token key"),
               auth.mkState
                 (Some (auth.mk_JWKSCache (auth.build_keys jwks)
                          (time env (auth.ticks σ1) + auth.JWKS_CACHE_TTL)))
                 (S (auth.ticks σ1)) (S (auth.fetches σ1)))
          | FetchError =>
              (Raise (HTTPException 503
                        "Auth server unavailable. Please try again."),
               auth.mkState None (S (auth.ticks σ1)) (S (auth.fetches σ1)))
          | FetchMalformed m =>
              (Raise (malformed_exn m),
               auth.mkState None (S (auth.ticks σ1)) (S (auth.fetches σ1)))
          end)).
Proof.
  split.
  { intros e σ1 Hget.
    rewrite (verify_token_lookup_failed env _ _ _ _ Hget).
    destruct (get_jwks_failed env _ _ _ Hget) as [Hf _].
    destruct (jwks_endpoint env (auth.fetches σ)) as [|jwks|m];
      cbn in Hf; simplify_eq; [done|by destruct m]. }
  intros public_keys σ1 Hget. split.
  { by apply (verify_token_unparsable env _ _ public_keys). }
  intros t Hparse Hkid.
  assert (Hunk : ∀ ks, auth.unknown_kid (kid (header t)) ks = true).
  { intros ks. unfold auth.unknown_kid. by rewrite Hkid. }
  destruct (jwks_endpoint env (auth.fetches σ1)) as [|jwks|m] eqn:Hfetch.
  { by apply (verify_token_unknown_kid env _ _ public_keys σ1 t). }
  all: unfold auth.verify_token, try_except, mbind, M_bind; rewrite Hget.
  all: unfold auth.get_unverified_header; rewrite Hparse; cbn [mret M_ret].
  all: rewrite Hunk; unfold auth.clear_jwks_cache, auth.set_cache, modify.
  all: cbn [auth.ticks auth.fetches].
  - rewrite (get_jwks_cold_up env _ _ jwks Hfetch).
    by rewrite Hunk.
  - rewrite (get_jwks_cold_malformed env _ _ m Hfetch). by destruct m.
Qed.

(** C4, as the code has it. A lookup whose fetch fails raises
    [httpx.HTTPError], which [verify_token] answers with 503, and the
    cache after it is the cache before it (as it is when the answer is
    not a key set, whose exception no clause catches). When the fetch is
    the one made for an unknown key identifier, the cache was cleared
    before the request was sent: after the failure, answered 503 as
    well, the cache is empty. *)
Theorem C4_failed_refresh token σ :
  (∀ e σ1,
     auth._get_jwks env σ = (Raise e, σ1) →
     auth._cache σ1 = auth._cache σ
     ∧ match jwks_endpoint env (auth.fetches σ) with
       | FetchError =>
           e = HTTPError
           ∧ auth.verify_token env token σ
             = (Raise (HTTPException 503
                         "Auth server unavailable. Please try again."), σ1)
       | FetchMalformed m =>
           e = malformed_exn m
           ∧ auth.verify_token env token σ = (Raise e, σ1)
       | FetchOk _ => False
       end)
  ∧
  (∀ public_keys σ1 t,
     auth._get_jwks env σ = (Ok public_keys, σ1) →
     parse env (auth.strip_bearer token) = Some t →
     auth.unknown_kid (kid (header t)) public_keys = true →
     jwks_endpoint env (auth.fetches σ1) = FetchError →
     fst (auth.verify_token env token σ)
     = Raise (HTTPException 503 "Auth server unavailable. Please try again.")
     ∧ auth._cache (snd (auth.verify_token env token σ)) = None).
Proof.
  split.
  - intros e σ1 Hget.
    rewrite (verify_token_lookup_failed env _ _ _ _ Hget).
    destruct (get_jwks_failed env _ _ _ Hget) as [Hf ->].
    split; [done|].
    destruct (jwks_endpoint env (auth.fetches σ)) as [|jwks|m];
      cbn in Hf; simplify_eq; [done|by destruct m].
  - intros public_keys σ1 t Hget Hparse Hunk Hdown.
    by rewrite (verify_token_unknown_kid env _ _ _ _ _ Hget Hparse Hunk Hdown).
Qed.


End verification.

(** ** The three gates on the sample tokens *)



(** An expired token with a valid signature that is not yet valid
    either: [nbf] is checked before [exp], and the answer is the
    generic one. *)
Example premature_expired_token :
  exp (payload sample.premature) = Some 100
  ∧ nbf (payload sample.premature) = Some 5000
  ∧ signed_by sample.premature = Some sample.k1
  ∧ fst (auth.verify_token sample.env_up "Bearer premature" sample.warm)
    = Raise (HTTPException 401 "Invalid token").
Proof. split_and!; by vm_compute. Qed.

(** A key set with an entry without [kid]: the [KeyError] of the loop in
    [_get_jwks] leaves [verify_token], whatever the token, and nothing
    is cached. *)
Example key_set_without_kid :
  auth.verify_token sample.env_no_kid "Bearer current" sample.cold
  = (Raise KeyError, auth.mkState None 1 1).
Proof. by vm_compute. Qed.

(** A string that is no token, an empty cache, the provider down: a
    request is sent before the header is looked at, and the answer is
    503. A header without key identifier on a valid cache: the cache is
    replaced by the answer to one more request. *)
Lemma C3_counterexample :
  parse sample.env_down (auth.strip_bearer "garbage") = None
  ∧ auth.verify_token sample.env_down "garbage" sample.cold
    = (Raise (HTTPException 503 "Auth server unavailable. Please try again."),
       auth.mkState None 1 1)
  ∧ kid (header sample.anonymous) = None
  ∧ auth.fetches sample.warm = 0%nat
  ∧ auth.fetches (snd (auth.verify_token sample.env_up "anonymous"
                         sample.warm)) = 1%nat.
Proof. split_and!; by vm_compute. Qed.

Lemma C3_witness :
  auth.verify_token sample.env_up "garbage" sample.warm
  = (Raise (HTTPException 401 "Invalid token"),
     auth.mkState (Some sample.snapshot) 1 0).
Proof.
  refine (proj1 (proj2 (C3_lookup_before_header sample.env_up "garbage"
                          sample.warm)
                   {[ "k1" := sample.k1 ]}
                   (auth.mkState (Some sample.snapshot) 1 0) _) _).
  - reflexivity.
  - reflexivity.
Defined.

(** A valid cache, a token signed by a rotated key, the provider down:
    the answer is 503 and the cache, valid until 5000 on a clock that
    stands at 1000, is gone. *)
Lemma C4_counterexample :
  auth._cache sample.warm = Some sample.snapshot
  ∧ time sample.env_down 0 < auth.expires_at sample.snapshot
  ∧ fst (auth.verify_token sample.env_down "Bearer rotated" sample.warm)
    = Raise (HTTPException 503 "Auth server unavailable. Please try again.")
  ∧ auth._cache (snd (auth.verify_token sample.env_down "Bearer rotated"
                        sample.warm)) = None.
Proof. split_and!; by vm_compute. Qed.

Lemma C4_witness :
  fst (auth.verify_token sample.env_down "Bearer rotated" sample.warm)
  = Raise (HTTPException 503 "Auth server unavailable. Please try again.")
  ∧ auth._cache (snd (auth.verify_token sample.env_down "Bearer rotated"
                        sample.warm)) = None.
Proof.
  refine (proj2 (C4_failed_refresh sample.env_down "Bearer rotated"
                   sample.warm)
            {[ "k1" := sample.k1 ]}
            (auth.mkState (Some sample.snapshot) 1 0) sample.rotated
            _ _ _ _).
  - reflexivity.
  - reflexivity.
  - reflexivity.
  - reflexivity.
Defined.

(** * Further properties *)

(** ** Token verification as a whole *)

Section verification_outcomes.
Context (env : Env).
Implicit Types (σ : auth.State) (token : string) (t : JWT).

Lemma unknown_kid_false (kid : option string) (public_keys : gmap string Key) :
  auth.unknown_kid kid public_keys = false →
  ∃ k key, kid = Some k ∧ k ≠ "" ∧ public_keys !! k = Some key.
Proof.
  unfold auth.unknown_kid, truthy. destruct kid as [k|]; [|done]. cbn.
  intros [Hk Hin]%orb_false_elim.
  apply negb_false_iff, negb_true_iff, bool_decide_eq_false in Hk.
  apply bool_decide_eq_false in Hin.
  destruct (public_keys !! k) as [key|] eqn:Hkey; [|done].
  exists k, key. split_and!; [done| |done].
  intros ->. by apply Hk.
Qed.

Lemma unknown_kid_known (k : string) key (public_keys : gmap string Key) :
  k ≠ "" → public_keys !! k = Some key →
  auth.unknown_kid (Some k) public_keys = false.
Proof.
  intros Hk Hkey. unfold auth.unknown_kid, truthy. cbn.
  rewrite !bool_decide_eq_false_2; [done|by rewrite Hkey|done].
Qed.

Lemma verify_token_check_claims token σ public_keys σ1 t k key :
  auth._get_jwks env σ = (Ok public_keys, σ1) →
  parse env (auth.strip_bearer token) = Some t →
  kid (header t) = Some k → k ≠ "" → public_keys !! k = Some key →
  auth.verify_token env token σ = check_claims env token key σ1.
Proof. apply verify_token_known_kid. Qed.

(** The key was unknown, the cache was cleared and the second lookup
    knows the key. *)
Lemma verify_token_refetched token σ public_keys σ1 public_keys' σ2 t k key :
  auth._get_jwks env σ = (Ok public_keys, σ1) →
  parse env (auth.strip_bearer token) = Some t →
  auth.unknown_kid (kid (header t)) public_keys = true →
  auth._get_jwks env (auth.mkState None (auth.ticks σ1) (auth.fetches σ1))
  = (Ok public_keys', σ2) →
  kid (header t) = Some k → k ≠ "" → public_keys' !! k = Some key →
  auth.verify_token env token σ = check_claims env token key σ2.
Proof.
  intros Hget Hparse Hunk Hget' Hkid Hk Hkey.
  pose proof (unknown_kid_known k key public_keys' Hk Hkey) as Hknown.
  unfold auth.verify_token, check_claims, try_except, mbind at 1 2 3 4,
    M_bind.
  rewrite Hget. unfold auth.get_unverified_header. rewrite Hparse.
  cbn [mret M_ret]. rewrite Hunk.
  unfold auth.clear_jwks_cache, auth.set_cache, modify, mbind at 1 2 3,
    M_bind.
  cbn [auth.ticks auth.fetches]. rewrite Hget'.
  rewrite Hkid, Hknown. cbn [raise_if mret M_ret option_bind mbind].
  by rewrite Hkey.
Qed.

(** The key was unknown and stays unknown after the second lookup. *)
Lemma verify_token_still_unknown token σ public_keys σ1 public_keys' σ2 t :
  auth._get_jwks env σ = (Ok public_keys, σ1) →
  parse env (auth.strip_bearer token) = Some t →
  auth.unknown_kid (kid (header t)) public_keys = true →
  auth._get_jwks env (auth.mkState None (auth.ticks σ1) (auth.fetches σ1))
  = (Ok public_keys', σ2) →
  auth.unknown_kid (kid (header t)) public_keys' = true →
  auth.verify_token env token σ
  = (Raise (HTTPException 401 "Invalid token key"), σ2).
Proof.
  intros Hget Hparse Hunk Hget' Hunk'.
  unfold auth.verify_token, try_except, mbind, M_bind.
  rewrite Hget. unfold auth.get_unverified_header. rewrite Hparse.
  cbn [mret M_ret]. rewrite Hunk.
  unfold auth.clear_jwks_cache, auth.set_cache, modify.
  cbn [auth.ticks auth.fetches]. rewrite Hget'. by rewrite Hunk'.
Qed.

(** The key was unknown and the second lookup failed. *)
Lemma verify_token_refresh_failed token σ public_keys σ1 t e σ2 :
  auth._get_jwks env σ = (Ok public_keys, σ1) →
  parse env (auth.strip_bearer token) = Some t →
  auth.unknown_kid (kid (header t)) public_keys = true →
  auth._get_jwks env (auth.mkState None (auth.ticks σ1) (auth.fetches σ1))
  = (Raise e, σ2) →
  auth.verify_token env token σ = (Raise (surfaced e), σ2).
Proof.
  intros Hget Hparse Hunk Hget'.
  destruct (get_jwks_failed env _ _ _ Hget') as [Hf _].
  unfold auth.verify_token, try_except, mbind, M_bind.
  rewrite Hget. unfold auth.get_unverified_header. rewrite Hparse.
  cbn [mret M_ret]. rewrite Hunk.
  unfold auth.clear_jwks_cache, auth.set_cache, modify.
  cbn [auth.ticks auth.fetches]. rewrite Hget'.
  by apply (fetch_failure_on_error _ _ _ Hf).
Qed.

(** What leaves [verify_token] after a failed lookup in [σ]: the 503,
    or the exception of reading the answer to the request that the
    lookup sent. *)
Lemma lookup_failure_answer σ e σ' :
  auth._get_jwks env σ = (Raise e, σ') →
  auth.fetches σ' = S (auth.fetches σ)
  ∧ (answered (Raise (surfaced e))
     ∨ ∃ m, jwks_endpoint env (auth.fetches σ) = FetchMalformed m
            ∧ surfaced e = malformed_exn m).
Proof.
  intros Hget. destruct (get_jwks_failed env _ _ _ Hget) as [Hf ->].
  split; [done|].
  destruct (jwks_endpoint env (auth.fetches σ)) as [|jwks|m];
    cbn in Hf; simplify_eq.
  - left. cbn. by right.
  - right. exists m. split; [done|]. by destruct m.
Qed.

(** What [check_claims] answers on a well-formed token, and what it
    leaves of the state. *)
Lemma check_claims_run token key σ t :
  parse env (auth.strip_bearer token) = Some t →
  let σ' := auth.mkState (auth._cache σ) (S (auth.ticks σ))
              (auth.fetches σ) in
  check_claims env token key σ
  = if bool_decide (alg (header t) ≠ "RS256") then
      (Raise (HTTPException 401 "Invalid token"), σ)
    else if bool_decide (signed_by t ≠ Some key) then
      (Raise (HTTPException 401 "Invalid token"), σ)
    else if match iat (payload t) with
            | Some i => time env (auth.ticks σ) <? i
            | None => false
            end
    then (Raise (HTTPException 401 "Invalid token"), σ')
    else if match nbf (payload t) with
            | Some n => time env (auth.ticks σ) <? n
            | None => false
            end
    then (Raise (HTTPException 401 "Invalid token"), σ')
    else if match exp (payload t) with
            | Some e => e <=? time env (auth.ticks σ)
            | None => false
            end
    then (Raise (HTTPException 401
                   "Token has expired. Please sign in again."), σ')
    else if truthy (sub (payload t)) then
      (Ok (User.mk (default "" (sub (payload t)))
             (default "" (email (payload t))) (name (payload t))), σ')
    else (Raise (HTTPException 401 "Invalid token: missing user id"), σ').
Proof.
  intros Hparse σ'. unfold check_claims, try_except, mbind, M_bind.
  rewrite (decode_run env _ key σ t Hparse).
  repeat case_bool_decide; try done. cbn zeta. fold σ'.
  destruct (match iat (payload t) with Some _ => _ | None => _ end);
    [done|].
  destruct (match nbf (payload t) with Some _ => _ | None => _ end);
    [done|].
  destruct (match exp (payload t) with Some _ => _ | None => _ end);
    [done|].
  by destruct (truthy (sub (payload t))).
Qed.

Lemma check_claims_answered token key σ t :
  parse env (auth.strip_bearer token) = Some t →
  answered (fst (check_claims env token key σ))
  ∧ auth.fetches (snd (check_claims env token key σ)) = auth.fetches σ
  ∧ auth._cache (snd (check_claims env token key σ)) = auth._cache σ.
Proof.
  intros Hparse. rewrite (check_claims_run _ key σ t Hparse).
  repeat case_match; cbn; auto.
Qed.

End verification_outcomes.

Section verification_theorems.
Context (env : Env).
Implicit Types (σ : auth.State) (token : string) (t : JWT).

(** After a successful lookup the cache holds the keys returned. *)
Lemma get_jwks_ok σ public_keys σ1 :
  auth._get_jwks env σ = (Ok public_keys, σ1) →
  ∃ c, auth._cache σ1 = Some c ∧ auth.keys c = public_keys.
Proof.
  destruct σ as [cache n f]. rewrite get_jwks_run.
  destruct cache as [c|]; [case_bool_decide|];
    rewrite ?fetch_jwks_run; try destruct (jwks_endpoint env f);
    intros ?; simplify_eq; eauto.
Qed.

(** A lookup sends a request or none. *)
Lemma get_jwks_fetches_mono σ :
  (auth.fetches σ ≤ auth.fetches (snd (auth._get_jwks env σ)))%nat.
Proof.
  destruct σ as [cache n f]. rewrite get_jwks_run.
  cbn [auth._cache auth.ticks auth.fetches].
  destruct cache as [c|]; [case_bool_decide; [cbn; lia|]|];
    rewrite fetch_jwks_run; destruct (jwks_endpoint env f); cbn; lia.
Qed.

(** The shape of every run of [verify_token]: its answer, how many
    requests it sent, and, for an accepted token, where the identity
    came from. *)
Lemma verify_token_shape token σ :
  let out := auth.verify_token env token σ in
  (answered (fst out) ∨ malformed_answer env σ (snd out) (fst out))
  ∧ (auth.fetches (snd out) ≤ 2 + auth.fetches σ)%nat
  ∧ ∀ user, fst out = Ok user →
      ∃ t k key c,
        parse env (auth.strip_bearer token) = Some t
        ∧ kid (header t) = Some k
        ∧ auth._cache (snd out) = Some c ∧ auth.keys c !! k = Some key
        ∧ alg (header t) = "RS256" ∧ signed_by t = Some key
        ∧ sub (payload t) = Some (User.id user) ∧ User.id user ≠ "".
Proof.
  intros out. subst out.
  assert (Hclaims : ∀ key k t σ' c,
    parse env (auth.strip_bearer token) = Some t →
    kid (header t) = Some k →
    auth._cache σ' = Some c → auth.keys c !! k = Some key →
    ∀ user, fst (check_claims env token key σ') = Ok user →
      ∃ t0 k0 key0 c0,
        parse env (auth.strip_bearer token) = Some t0
        ∧ kid (header t0) = Some k0
        ∧ auth._cache (snd (check_claims env token key σ')) = Some c0
        ∧ auth.keys c0 !! k0 = Some key0
        ∧ alg (header t0) = "RS256" ∧ signed_by t0 = Some key0
        ∧ sub (payload t0) = Some (User.id user) ∧ User.id user ≠ "").
  { intros key k t σ' c Hparse Hkid Hc Hkey user.
    rewrite (check_claims_run env _ key σ' t Hparse).
    case_bool_decide as Halg; [done|]. case_bool_decide as Hsig; [done|].
    destruct (match iat (payload t) with Some _ => _ | None => _ end);
      [done|].
    destruct (match nbf (payload t) with Some _ => _ | None => _ end);
      [done|].
    destruct (match exp (payload t) with Some _ => _ | None => _ end);
      [done|].
    destruct (sub (payload t)) as [u|] eqn:Hsub; [|done].
    cbn [truthy]. case_bool_decide as Hu; [done|]. cbn.
    intros [= <-]. exists t, k, key, c. cbn.
    split_and!; try done; by apply dec_stable. }
  destruct (auth._get_jwks env σ) as [[public_keys|e] σ1] eqn:Hget.
  2:{ rewrite (verify_token_lookup_failed env _ _ _ _ Hget). cbn [fst snd].
      destruct (lookup_failure_answer env _ _ _ Hget) as [Hf [Hans|Hm]].
      - split_and!; [by left|lia|done].
      - destruct Hm as (m & Hm & ->).
        split_and!; [right; exists m, (auth.fetches σ)|lia|by destruct m].
        split_and!; [lia|lia|done|done]. }
  pose proof (get_jwks_fetches env σ) as Hf1. rewrite Hget in Hf1.
  pose proof (get_jwks_fetches_mono σ) as Hm1. rewrite Hget in Hm1.
  cbn [snd] in Hf1, Hm1.
  destruct (get_jwks_ok _ _ _ Hget) as (c1 & Hc1 & Hkeys1).
  destruct (parse env (auth.strip_bearer token)) as [t|] eqn:Hparse.
  2:{ rewrite (verify_token_unparsable env _ _ _ _ Hget Hparse). cbn.
      split_and!; [left; by left|lia|done]. }
  destruct (auth.unknown_kid (kid (header t)) public_keys) eqn:Hunk.
  2:{ destruct (unknown_kid_false _ _ Hunk) as (k & key & Hkid & Hk & Hkey).
      rewrite (verify_token_check_claims env _ _ _ _ _ _ _
                 Hget Hparse Hkid Hk Hkey).
      destruct (check_claims_answered env token key σ1 t Hparse)
        as (Hans & Hfetch & Hcache).
      split_and!; [by left|lia|].
      apply (Hclaims key k t σ1 c1); [done..|by rewrite Hkeys1]. }
  set (σc := auth.mkState None (auth.ticks σ1) (auth.fetches σ1)).
  pose proof (get_jwks_fetches env σc) as Hf2. cbn [auth.fetches σc] in Hf2.
  destruct (auth._get_jwks env σc) as [[public_keys'|e] σ2] eqn:Hget'.
  2:{ rewrite (verify_token_refresh_failed env _ _ _ _ _ _ _
                 Hget Hparse Hunk Hget').
      cbn [fst snd].
      destruct (lookup_failure_answer env _ _ _ Hget') as [Hf [Hans|Hm]];
        cbn [auth.fetches σc] in *.
      - split_and!; [by left|lia|done].
      - destruct Hm as (m & Hm & ->).
        split_and!; [right; exists m, (auth.fetches σ1)|lia|by destruct m].
        split_and!; [lia|lia|done|done]. }
  cbn [snd] in Hf2.
  destruct (get_jwks_ok _ _ _ Hget') as (c2 & Hc2 & Hkeys2).
  destruct (auth.unknown_kid (kid (header t)) public_keys') eqn:Hunk'.
  { rewrite (verify_token_still_unknown env _ _ _ _ _ _ _
               Hget Hparse Hunk Hget' Hunk').
    cbn. split_and!; [left; by left|lia|done]. }
  destruct (unknown_kid_false _ _ Hunk') as (k & key & Hkid & Hk & Hkey).
  rewrite (verify_token_refetched env _ _ _ _ _ _ _ _ _
             Hget Hparse Hunk Hget' Hkid Hk Hkey).
  destruct (check_claims_answered env token key σ2 t Hparse)
    as (Hans & Hfetch & Hcache).
  split_and!; [by left|lia|].
  apply (Hclaims key k t σ2 c2); [done..|by rewrite Hkeys2].
Qed.


(** X2. One call of [verify_token] sends at most two requests to the
    identity provider: the lookup, and one refresh for an unknown key
    identifier. *)
Theorem verify_token_at_most_two_requests token σ :
  (auth.fetches (snd (auth.verify_token env token σ))
   ≤ 2 + auth.fetches σ)%nat.
Proof. apply verify_token_shape. Qed.

(** X3. When [verify_token] returns a user, the token parsed, its
    algorithm is RS256, its signature verifies under the key that the
    cache holds for the token's key identifier after the call, and the
    user's id is the token's non-empty subject. *)
Theorem verify_token_sound token σ user :
  fst (auth.verify_token env token σ) = Ok user →
  ∃ t k key c,
    parse env (auth.strip_bearer token) = Some t
    ∧ kid (header t) = Some k
    ∧ auth._cache (snd (auth.verify_token env token σ)) = Some c
    ∧ auth.keys c !! k = Some key
    ∧ alg (header t) = "RS256" ∧ signed_by t = Some key
    ∧ sub (payload t) = Some (User.id user) ∧ User.id user ≠ "".
Proof. apply verify_token_shape. Qed.

(** X4. A well-formed RS256 token whose key identifier is in the key
    set, whose signature verifies under that key, whose [iat] and
    [nbf], if present, are not after the reading of the clock, which is
    not expired at that reading and which has a non-empty subject is
    accepted: the user carries the subject, the email claim (or the
    empty string) and the name claim. *)
Theorem verify_token_accepts token σ public_keys σ1 t k key u :
  auth._get_jwks env σ = (Ok public_keys, σ1) →
  parse env (auth.strip_bearer token) = Some t →
  kid (header t) = Some k → k ≠ "" → public_keys !! k = Some key →
  alg (header t) = "RS256" → signed_by t = Some key →
  (∀ i, iat (payload t) = Some i → i ≤ time env (auth.ticks σ1)) →
  (∀ n, nbf (payload t) = Some n → n ≤ time env (auth.ticks σ1)) →
  (∀ e, exp (payload t) = Some e → time env (auth.ticks σ1) < e) →
  sub (payload t) = Some u → u ≠ "" →
  auth.verify_token env token σ
  = (Ok (User.mk u (default "" (email (payload t))) (name (payload t))),
     auth.mkState (auth._cache σ1) (S (auth.ticks σ1)) (auth.fetches σ1)).
Proof.
  intros Hget Hparse Hkid Hk Hkey Halg Hsig Hiat Hnbf Hexp Hsub Hu.
  rewrite (verify_token_check_claims env _ _ _ _ _ _ _
             Hget Hparse Hkid Hk Hkey).
  rewrite (check_claims_run env _ key σ1 t Hparse).
  rewrite !bool_decide_eq_false_2 by (by intros ?). cbn zeta.
  rewrite (not_in_future _ _ Hiat), (not_in_future _ _ Hnbf).
  destruct (exp (payload t)) as [e|] eqn:He.
  - specialize (Hexp e eq_refl).
    rewrite (proj2 (Z.leb_gt _ _)) by lia. rewrite Hsub. cbn.
    by rewrite bool_decide_eq_false_2.
  - rewrite Hsub. cbn. by rewrite bool_decide_eq_false_2.
Qed.

End verification_theorems.

Lemma verify_token_sound_witness :
  ∃ t k key c,
    parse sample.env_up (auth.strip_bearer "Bearer current") = Some t
    ∧ kid (header t) = Some k
    ∧ auth._cache (snd (auth.verify_token sample.env_up "Bearer current"
                          sample.cold)) = Some c
    ∧ auth.keys c !! k = Some key
    ∧ alg (header t) = "RS256" ∧ signed_by t = Some key
    ∧ sub (payload t) = Some "alice" ∧ "alice" ≠ "".
Proof.
  apply (verify_token_sound sample.env_up "Bearer current" sample.cold
           (User.mk "alice" "alice@example.com" (Some "Alice"))).
  by vm_compute.
Defined.

Lemma verify_token_accepts_witness :
  auth.verify_token sample.env_up "Bearer current" sample.warm
  = (Ok (User.mk "alice" "alice@example.com" (Some "Alice")),
     auth.mkState (Some sample.snapshot) 2 0).
Proof.
  refine (verify_token_accepts sample.env_up "Bearer current" sample.warm
            {[ "k1" := sample.k1 ]}
            (auth.mkState (Some sample.snapshot) 1 0)
            sample.current "k1" sample.k1 "alice" _ _ _ _ _ _ _ _ _ _ _ _).
  - reflexivity.
  - reflexivity.
  - reflexivity.
  - by_compute.
  - reflexivity.
  - reflexivity.
  - reflexivity.
  - intros i [= <-]. cbn. lia.
  - intros n [= <-]. cbn. lia.
  - intros e [= <-]. cbn. lia.
  - reflexivity.
  - by_compute.
Defined.

(** ** The key set and its time to live *)

(** X5. The lookup built from a key set maps a key identifier to the
    key of its last entry in the set, and to nothing when the set has no
    entry for it. *)
Theorem build_keys_last_entry (jwks : list (string * Key)) (k : string) :
  auth.build_keys jwks !! k = snd <$> last (filter (λ p, p.1 = k) jwks).
Proof.
  unfold auth.build_keys.
  induction jwks as [|[k' key] jwks IH] using rev_ind; [done|].
  rewrite foldl_app, filter_app. cbn [foldl fst snd].
  destruct (decide (k' = k)) as [->|Hne].
  - rewrite lookup_insert_eq, filter_cons_True by done.
    by rewrite filter_nil, last_snoc.
  - rewrite lookup_insert_ne by done.
    rewrite filter_cons_False by done.
    by rewrite filter_nil, app_nil_r.
Qed.

(** X6. A lookup that had to fetch the key set caches it for
    [JWKS_CACHE_TTL] seconds from the reading of the clock it started
    with: the next lookup returns the same keys without a request when
    the clock reads less than that, and sends a new request when it
    reads that or more. *)
Theorem cache_expires_after_ttl (env : Env) cache (n f : nat) jwks :
  match cache with
  | Some c => auth.expires_at c ≤ time env n
  | None => True
  end →
  jwks_endpoint env f = FetchOk jwks →
  let σ1 := snd (auth._get_jwks env (auth.mkState cache n f)) in
  (time env (S n) < time env n + 300 →
   auth._get_jwks env σ1
   = (Ok (auth.build_keys jwks),
      auth.mkState (auth._cache σ1) (S (S n)) (S f)))
  ∧ (time env n + 300 ≤ time env (S n) →
     auth.fetches (snd (auth._get_jwks env σ1)) = S (S f)).
Proof.
  intros Hstale Hup σ1.
  assert (Hσ1 : σ1 = auth.mkState
            (Some (auth.mk_JWKSCache (auth.build_keys jwks)
                     (time env n + auth.JWKS_CACHE_TTL)))
            (S n) (S f)).
  { subst σ1. rewrite get_jwks_run.
    destruct cache as [c|];
      [rewrite bool_decide_eq_false_2 by lia|];
      by rewrite fetch_jwks_run, Hup. }
  rewrite Hσ1. clear σ1 Hσ1. rewrite get_jwks_run.
  cbn [auth.expires_at auth._cache]. unfold auth.JWKS_CACHE_TTL. split.
  - intros Hlt. by rewrite bool_decide_eq_true_2.
  - intros Hge. rewrite bool_decide_eq_false_2 by lia.
    rewrite fetch_jwks_run. by destruct (jwks_endpoint env (S f)).
Qed.

Lemma cache_expires_after_ttl_witness :
  auth._get_jwks sample.env_up
    (snd (auth._get_jwks sample.env_up sample.cold))
  = (Ok (auth.build_keys [("k1", sample.k1)]),
     auth.mkState
       (auth._cache (snd (auth._get_jwks sample.env_up sample.cold))) 2 1).
Proof.
  refine (proj1 (cache_expires_after_ttl sample.env_up None 0 0
                   [("k1", sample.k1)] I eq_refl) _).
  cbn. lia.
Defined.

(** ** Tenants and soft-deleted rows over sequences of requests *)

(** What every service call made for an owner in [P] does to the
    store, a handler called with such an owner in the path does too. *)
Section handlers_preserve_for.
Context (R : relation Store) `{!PreOrder R} (P : string → Prop).
Hypothesis list_R : ∀ u σ, P u → R σ (snd (TaskService.list_tasks u σ)).
Hypothesis get_R : ∀ u i σ, P u → R σ (snd (TaskService.get_task u i σ)).
Hypothesis create_R :
  ∀ u req d σ, P u → R σ (snd (TaskService.create_task u req d σ)).
Hypothesis update_R :
  ∀ u i req now σ, P u →
    R σ (snd (TaskService.update_task u i req now σ)).
Hypothesis delete_R :
  ∀ u i now σ, P u → R σ (snd (TaskService.delete_task u i now σ)).

Lemma handle_preserves_for (r : Request) (σ : Store) :
  P (path_owner r) → R σ (snd (handle r σ)).
Proof.
  revert σ.
  destruct r as [u cu|u i cu|u req cu d|u i req cu now|u i cu now];
    cbn [handle path_owner]; intros σ Hu; revert σ;
    [unfold tasks.list_tasks|unfold tasks.get_task|unfold tasks.create_task
    |unfold tasks.update_task|unfold tasks.delete_task];
    (apply (bind_preserves R);
       [intros σ; apply (raise_if_preserves R)|intros _]);
    (apply (bind_preserves R); [intros σ|intros a]);
    auto; try done.
  apply (bind_preserves R); [intros σ|done]. by destruct a.
Qed.

Lemma handle_all_preserves_for (rs : list Request) (σ : Store) :
  Forall (λ r, P (path_owner r)) rs → R σ (handle_all rs σ).
Proof.
  intros Hall. revert σ.
  induction Hall as [|r rs Hr _ IH]; intros σ; [done|].
  cbn. etrans; [by apply handle_preserves_for|apply IH].
Qed.

End handlers_preserve_for.

#[local] Instance deleted_kept_preorder : PreOrder deleted_kept.
Proof. split; unfold deleted_kept; [intros σ|intros σ1 σ2 σ3]; eauto. Qed.

#[local] Instance owner_kept_preorder owner : PreOrder (owner_kept owner).
Proof.
  split; unfold owner_kept; [intros σ|intros σ1 σ2 σ3]; [done|].
  intros H12 H23. by rewrite H23.
Qed.

Lemma filter_insert_outside {A} (Q : A → Prop) `{!∀ x, Decision (Q x)}
    (l : list A) k x y :
  l !! k = Some x → ¬ Q x → ¬ Q y → filter Q (<[k := y]> l) = filter Q l.
Proof.
  revert k. induction l as [|z l IH]; intros [|k] Hk Hx Hy; simplify_eq/=.
  - by rewrite !filter_cons_False.
  - rewrite !filter_cons. by rewrite (IH k).
Qed.

Lemma update_task_cases user_id task_id updates now σ :
  rows (snd (TaskService.update_task user_id task_id updates now σ)) = rows σ
  ∨ ∃ k t, rows σ !! k = Some t ∧ Task.user_id t = user_id
           ∧ Task.status t ≠ "deleted"
           ∧ rows (snd (TaskService.update_task user_id task_id updates
                          now σ))
             = <[k := partial_update updates now t]> (rows σ).
Proof.
  rewrite update_task_run.
  destruct (TaskRepository.first_scoped _ _ _) as [[k t]|] eqn:Hf;
    [|by left].
  apply first_scoped_found in Hf as (Hk & _ & Hu).
  case_bool_decide; [by left|].
  destruct (title_blank updates); [by left|].
  destruct (description_too_long updates); [by left|].
  right. by exists k, t.
Qed.

Lemma delete_task_cases user_id task_id now σ :
  rows (snd (TaskService.delete_task user_id task_id now σ)) = rows σ
  ∨ ∃ k t, rows σ !! k = Some t ∧ Task.user_id t = user_id
           ∧ Task.status t ≠ "deleted"
           ∧ rows (snd (TaskService.delete_task user_id task_id now σ))
             = <[k := mark_deleted now t]> (rows σ).
Proof.
  rewrite delete_task_run.
  destruct (TaskRepository.first_scoped _ _ _) as [[k t]|] eqn:Hf;
    [|by left].
  apply first_scoped_found in Hf as (Hk & _ & Hu).
  case_bool_decide; [by left|]. right. by exists k, t.
Qed.

Lemma create_task_cases user_id req d σ :
  rows (snd (TaskService.create_task user_id req d σ)) = rows σ
  ∨ rows (snd (TaskService.create_task user_id req d σ))
    = rows σ ++ [new_task user_id req d].
Proof.
  rewrite create_task_run. destruct (create_rejected req); [by left|].
  case_bool_decide; [by left|by right].
Qed.

(** X7. A soft-deleted row is never written again: over any sequence of
    list, get, create, update and delete requests, by whatever callers,
    it keeps its position and every one of its fields. *)
Theorem deleted_rows_are_final (rs : list Request) (σ : Store) k t :
  rows σ !! k = Some t → Task.status t = "deleted" →
  rows (handle_all rs σ) !! k = Some t.
Proof.
  revert k t. change (deleted_kept σ (handle_all rs σ)).
  apply (handle_all_preserves deleted_kept).
  - intros u σ0 k t. by rewrite list_tasks_rows.
  - intros u i σ0 k t. by rewrite get_task_rows.
  - intros u req d σ0 k t Hk _.
    destruct (create_task_cases u req d σ0) as [->| ->]; [done|].
    by apply lookup_app_l_Some.
  - intros u i req now σ0 k t Hk Hdel.
    destruct (update_task_cases u i req now σ0)
      as [->|(k' & t' & Hk' & _ & Hlive & ->)]; [done|].
    rewrite list_lookup_insert_ne; [done|]. intros ->. congruence.
  - intros u i now σ0 k t Hk Hdel.
    destruct (delete_task_cases u i now σ0)
      as [->|(k' & t' & Hk' & _ & Hlive & ->)]; [done|].
    rewrite list_lookup_insert_ne; [done|]. intros ->. congruence.
Qed.

Lemma deleted_rows_are_final_witness :
  rows (handle_all
          [UpdateTask "alice" 2%N sample.rename sample.alice 40;
           DeleteTask "alice" 2%N sample.alice 50;
           DeleteTask "alice" 1%N sample.alice 60]
          sample.store) !! 1%nat = Some sample.archive.
Proof.
  by apply (deleted_rows_are_final
              [UpdateTask "alice" 2%N sample.rename sample.alice 40;
               DeleteTask "alice" 2%N sample.alice 50;
               DeleteTask "alice" 1%N sample.alice 60]
              sample.store 1%nat sample.archive).
Defined.

(** X8. Requests whose path names other owners leave the rows of an
    owner exactly as they were, whoever the callers are: none is
    changed, removed or added. *)
Theorem other_owners_requests_leave_rows (owner : string)
    (rs : list Request) (σ : Store) :
  Forall (λ r, path_owner r ≠ owner) rs →
  rows_of owner (handle_all rs σ) = rows_of owner σ.
Proof.
  apply (handle_all_preserves_for (owner_kept owner) (λ u, u ≠ owner));
    unfold owner_kept, rows_of.
  - intros u σ0 _. by rewrite list_tasks_rows.
  - intros u i σ0 _. by rewrite get_task_rows.
  - intros u req d σ0 Hu.
    destruct (create_task_cases u req d σ0) as [->| ->]; [done|].
    rewrite filter_app, filter_cons_False by done.
    by rewrite filter_nil, app_nil_r.
  - intros u i req now σ0 Hu.
    destruct (update_task_cases u i req now σ0)
      as [->|(k & t & Hk & Hown & _ & ->)]; [done|].
    apply (filter_insert_outside _ _ _ t); [done|congruence|].
    cbn. congruence.
  - intros u i now σ0 Hu.
    destruct (delete_task_cases u i now σ0)
      as [->|(k & t & Hk & Hown & _ & ->)]; [done|].
    apply (filter_insert_outside _ _ _ t); [done|congruence|].
    cbn. congruence.
Qed.

Lemma other_owners_requests_leave_rows_witness :
  rows_of "bob"
    (handle_all
       [UpdateTask "alice" 3%N sample.rename sample.alice 40;
        DeleteTask "alice" 3%N sample.alice 50;
        DeleteTask "alice" 1%N sample.alice 60]
       sample.store)
  = rows_of "bob" sample.store.
Proof.
  apply (other_owners_requests_leave_rows "bob").
  repeat constructor; by_compute.
Defined.

(** ** Round trips through the store *)

(** X9. A create request that passes the service's checks with an
    identifier not yet in the table returns the new task, and a get of
    that identifier by the same owner returns the same task: the title
    trimmed, status pending, the given priority or medium, the drawn
    timestamps. *)
Theorem create_then_get (user_id : string) (req : TaskCreateRequest.t)
    (d : Defaults) (σ : Store) :
  pk_unique (rows σ) →
  create_rejected req = None →
  default_id d ∉ Task.id <$> rows σ →
  let created := TaskService.create_task user_id req d σ in
  ∃ t,
    fst created = Ok t
    ∧ fst (TaskService.get_task user_id (default_id d) (snd created)) = Ok t
    ∧ Task.id t = default_id d ∧ Task.user_id t = user_id
    ∧ Task.title t = strip (TaskCreateRequest.title req)
    ∧ Task.status t = "pending"
    ∧ Task.priority t
      = (if truthy (TaskCreateRequest.priority req)
         then TaskCreateRequest.priority req else Some "medium")
    ∧ Task.created_at t = default_created_at d
    ∧ Task.updated_at t = default_updated_at d.
Proof.
  intros Hpk Hok Hfresh created. subst created.
  rewrite create_task_run, Hok, bool_decide_eq_false_2 by done.
  cbn [fst snd]. exists (new_task user_id req d).
  split_and!; try done.
  rewrite get_task_run. cbn [rows fst].
  assert (Hpk' : pk_unique (rows σ ++ [new_task user_id req d])).
  { unfold pk_unique. rewrite fmap_app. apply NoDup_app.
    split_and!; [done| |apply NoDup_singleton].
    intros i Hi ->%list_elem_of_singleton. done. }
  destruct (first_scoped_unique _ user_id (default_id d)
              (new_task user_id req d) Hpk') as [k ->]; try done.
  apply elem_of_app. right. apply list_elem_of_here.
Qed.

Lemma create_then_get_witness :
  ∃ t,
    fst (TaskService.create_task "alice"
           (TaskCreateRequest.mk "  Padded  " None None)
           (mkDefaults 7%N 100 100) sample.store) = Ok t
    ∧ fst (TaskService.get_task "alice" 7%N
             (snd (TaskService.create_task "alice"
                     (TaskCreateRequest.mk "  Padded  " None None)
                     (mkDefaults 7%N 100 100) sample.store))) = Ok t
    ∧ Task.title t = "Padded" ∧ Task.priority t = Some "medium".
Proof.
  destruct (create_then_get "alice"
              (TaskCreateRequest.mk "  Padded  " None None)
              (mkDefaults 7%N 100 100) sample.store)
    as (t & H1 & H2 & _ & _ & H3 & _ & H4 & _).
  - unfold pk_unique. by_compute.
  - reflexivity.
  - by_compute.
  - exists t. split_and!; [exact H1|exact H2|exact H3|exact H4].
Defined.

(** X10. After a delete that succeeded, on a table with unique primary
    keys, no task with that identifier is in the owner's list any more,
    while a get of the identifier still returns the row, with status
    deleted. *)
Theorem deleted_task_unlisted_but_gettable (user_id : string)
    (task_id : UUID) (now : datetime) (σ : Store) :
  pk_unique (rows σ) →
  fst (TaskService.delete_task user_id task_id now σ) = Ok true →
  let σ' := snd (TaskService.delete_task user_id task_id now σ) in
  (∃ tasks, fst (TaskService.list_tasks user_id σ') = Ok tasks
            ∧ ∀ t, t ∈ tasks → Task.id t ≠ task_id)
  ∧ (∃ t, fst (TaskService.get_task user_id task_id σ') = Ok t
          ∧ Task.status t = "deleted").
Proof.
  intros Hpk Hok σ'.
  assert (Hpk' : pk_unique (rows σ')).
  { apply (pk_kept_same_identity σ σ'); [apply delete_task_rows|done]. }
  assert (Hrow : ∃ k t, TaskRepository.first_scoped user_id task_id (rows σ')
                        = Some (k, t) ∧ Task.status t = "deleted").
  { subst σ'. revert Hok. rewrite delete_task_run.
    destruct (TaskRepository.first_scoped _ _ (rows σ)) as [[k t]|] eqn:Hf;
      [|done].
    case_bool_decide as Hst; intros _; cbn [snd rows logged].
    - by exists k, t.
    - exists k, (mark_deleted now t). split; [|done].
      apply (first_scoped_insert _ _ _ _ t); [done|].
      by apply first_scoped_found in Hf as (_ & ? & ?). }
  destruct Hrow as (k & t & Hf & Hst). split.
  - rewrite list_tasks_run. eexists. split; [done|].
    intros t0. rewrite merge_sort_Permutation, list_elem_of_filter.
    intros [[Hown Hlive] Hin] Hid.
    apply first_scoped_found in Hf as (Hk & Hidt & _).
    apply list_elem_of_lookup_2 in Hk.
    assert (t0 = t) as -> by (apply (pk_unique_inj (rows σ')); congruence).
    done.
  - exists t. by rewrite get_task_run, Hf.
Qed.

Lemma deleted_task_unlisted_but_gettable_witness :
  ∃ t, fst (TaskService.get_task "alice" 1%N
              (snd (TaskService.delete_task "alice" 1%N 99 sample.store)))
       = Ok t
       ∧ Task.status t = "deleted".
Proof.
  refine (proj2 (deleted_task_unlisted_but_gettable "alice" 1%N 99
                   sample.store _ _)).
  - unfold pk_unique. by_compute.
  - by vm_compute.
Defined.

(** ** [str.strip] *)

Lemma chars_inj s1 s2 : chars s1 = chars s2 → s1 = s2.
Proof.
  intros H. rewrite <- (string_of_list_ascii_of_string s1),
    <- (string_of_list_ascii_of_string s2). unfold chars in H. by rewrite H.
Qed.

Lemma chars_length s : length (chars s) = String.length s.
Proof. unfold chars. induction s as [|c s IH]; cbn; by rewrite ?IH. Qed.

Lemma chars_lstrip s : chars (lstrip s) = ltrim (chars s).
Proof.
  unfold chars. induction s as [|c s IH]; cbn; [done|].
  by destruct (isspace c).
Qed.

Lemma chars_rev_app s1 s2 :
  chars (String.rev_app s1 s2) = rev (chars s1) ++ chars s2.
Proof.
  unfold chars. revert s2.
  induction s1 as [|c s1 IH]; intros s2; cbn; [done|].
  rewrite IH. cbn. by rewrite <- app_assoc.
Qed.

Lemma chars_rev s : chars (String.rev s) = rev (chars s).
Proof. unfold String.rev. by rewrite chars_rev_app, app_nil_r. Qed.

Lemma chars_strip s : chars (strip s) = trim (chars s).
Proof.
  unfold strip, rstrip, trim.
  by rewrite chars_rev, chars_lstrip, chars_rev, chars_lstrip.
Qed.

Lemma ltrim_length l : (length (ltrim l) ≤ length l)%nat.
Proof. induction l as [|c l IH]; cbn; [done|]. destruct (isspace c); cbn; lia. Qed.

Lemma ltrim_idemp l : ltrim (ltrim l) = ltrim l.
Proof.
  induction l as [|c l IH]; cbn; [done|].
  destruct (isspace c) eqn:Hc; [done|]. cbn. by rewrite Hc.
Qed.

Lemma ltrim_fixed l :
  ltrim l = l → l = [] ∨ ∃ c l', l = c :: l' ∧ isspace c = false.
Proof.
  destruct l as [|c l]; [by left|]. cbn.
  destruct (isspace c) eqn:Hc; [|by right; eauto].
  intros H. pose proof (ltrim_length l) as Hlen. rewrite H in Hlen.
  cbn in Hlen. lia.
Qed.

Lemma ltrim_snoc u c w :
  isspace c = false → ltrim (u ++ c :: w) = ltrim u ++ c :: w.
Proof.
  intros Hc. induction u as [|a u IH]; cbn; [by rewrite Hc|].
  by destruct (isspace a).
Qed.

(** [rstrip] keeps a string without leading whitespace that way. *)
Lemma ltrim_rtrim m :
  ltrim m = m → ltrim (rev (ltrim (rev m))) = rev (ltrim (rev m)).
Proof.
  intros [->|(c & m' & -> & Hc)]%ltrim_fixed; [done|].
  cbn [rev]. rewrite (ltrim_snoc _ c [] Hc), rev_unit. cbn. by rewrite Hc.
Qed.

Lemma trim_idemp l : trim (trim l) = trim l.
Proof.
  unfold trim.
  rewrite (ltrim_rtrim (ltrim l)) by apply ltrim_idemp.
  by rewrite rev_involutive, ltrim_idemp.
Qed.

Lemma trim_length l : (length (trim l) ≤ length l)%nat.
Proof.
  unfold trim. rewrite length_rev.
  etrans; [apply ltrim_length|]. rewrite length_rev. apply ltrim_length.
Qed.

(** [strip] is idempotent and never lengthens a string. *)
Lemma strip_idempotent_and_shorter (s : string) :
  strip (strip s) = strip s ∧ len (strip s) ≤ len s.
Proof.
  split.
  - apply chars_inj. by rewrite !chars_strip, trim_idemp.
  - unfold len. rewrite <- !chars_length, chars_strip.
    pose proof (trim_length (chars s)). lia.
Qed.

(** ** The request schemas *)

Lemma len_zero s : len s = 0 → s = "".
Proof. unfold len. destruct s; cbn; [done|lia]. Qed.

Lemma strip_trimmed_within (n : Z) (s : string) :
  strip s ≠ "" → len s ≤ n → trimmed_within n (strip s).
Proof.
  intros Hne Hlen. destruct (strip_idempotent_and_shorter s) as [Hid Hle].
  unfold trimmed_within. split_and!; [done..|lia].
Qed.

Lemma create_field_title m ti :
  TaskCreateRequest.field_title m = Some ti → trimmed_within 500 ti.
Proof.
  unfold TaskCreateRequest.field_title, TaskCreateRequest.validate_title.
  destruct m as [[s|]|]; [|done..].
  destruct (1 <=? len s) eqn:H1; [|done].
  destruct (len s <=? 500) eqn:H2; [|done]. cbn.
  case_bool_decide; [done|]. intros [= <-].
  apply strip_trimmed_within; [done|lia].
Qed.

Lemma create_field_description m de d :
  TaskCreateRequest.field_description m = Some de → de = Some d →
  trimmed_within 10000 d.
Proof.
  unfold TaskCreateRequest.field_description,
    TaskCreateRequest.validate_description.
  destruct m as [[s|]|]; [|intros; simplify_eq..].
  destruct (len s <=? 10000) eqn:H2; [|done].
  case_bool_decide; intros; simplify_eq.
  apply strip_trimmed_within; [done|lia].
Qed.

Lemma create_field_priority m pr p :
  TaskCreateRequest.field_priority m = Some pr → pr = Some p →
  p ∈ priorities.
Proof.
  unfold TaskCreateRequest.field_priority,
    TaskCreateRequest.validate_priority.
  unfold priorities.
  destruct m as [[s|]|]; [|intros; simplify_eq..].
  - case_bool_decide as Hin; intros; by simplify_eq.
  - apply list_elem_of_further, list_elem_of_here.
Qed.

(** X11. A body that the create schema accepts gives a request whose title
    is trimmed, not empty and at most 500 characters long, whose
    description, if any, is trimmed, not empty and at most 10000
    characters long, and whose priority, if any, is low, medium or
    high; the checks that [TaskService.create_task] repeats never reject
    such a request. *)
Theorem create_schema_guarantees (body : json) (req : TaskCreateRequest.t) :
  TaskCreateRequest.model_validate body = Valid req →
  trimmed_within 500 (TaskCreateRequest.title req)
  ∧ (∀ d, TaskCreateRequest.description req = Some d →
          trimmed_within 10000 d)
  ∧ (∀ p, TaskCreateRequest.priority req = Some p → p ∈ priorities)
  ∧ create_rejected req = None.
Proof.
  unfold TaskCreateRequest.model_validate.
  destruct (TaskCreateRequest.field_title _) as [ti|] eqn:Hti;
    destruct (TaskCreateRequest.field_description _) as [de|] eqn:Hde;
    destruct (TaskCreateRequest.field_priority _) as [pr|] eqn:Hpr;
    try done.
  intros [= <-].
  cbn [TaskCreateRequest.title TaskCreateRequest.description
       TaskCreateRequest.priority].
  pose proof (create_field_title _ _ Hti) as (Hne & Hid & Hlen).
  assert (Hdesc : ∀ d, de = Some d → trimmed_within 10000 d)
    by (intros d; by apply create_field_description with (m := body !! "description")).
  split_and!.
  - done.
  - done.
  - intros p. by apply create_field_priority with (m := body !! "priority").
  - unfold create_rejected.
    cbn [TaskCreateRequest.title TaskCreateRequest.description].
    rewrite bool_decide_eq_false_2 by done. rewrite Hid.
    destruct (len ti =? 0) eqn:H0.
    { apply Z.eqb_eq, len_zero in H0. done. }
    cbn [orb]. destruct de as [d|]; [|done].
    destruct (Hdesc d eq_refl) as (_ & _ & Hd).
    change (default "" (Some d)) with d.
    rewrite (proj2 (Z.ltb_ge _ _)) by lia. by rewrite andb_false_r.
Qed.

Lemma create_schema_guarantees_witness :
  trimmed_within 500 "Padded".
Proof.
  refine (proj1 (create_schema_guarantees {[ "title" := Some "  Padded  " ]}
                   (TaskCreateRequest.mk "Padded" None (Some "medium")) _)).
  by vm_compute.
Defined.

Lemma update_field_title m ti s :
  TaskUpdateRequest.field_title m = Some ti → ti = Some s →
  trimmed_within 500 s.
Proof.
  unfold TaskUpdateRequest.field_title, TaskUpdateRequest.validate_title.
  destruct m as [[s0|]|]; [|intros; simplify_eq..].
  destruct (1 <=? len s0) eqn:H1; [|done].
  destruct (len s0 <=? 500) eqn:H2; [|done]. cbn.
  case_bool_decide; intros; simplify_eq.
  apply strip_trimmed_within; [done|lia].
Qed.

Lemma update_field_description m de d :
  TaskUpdateRequest.field_description m = Some de → de = Some d →
  len d ≤ 10000.
Proof.
  unfold TaskUpdateRequest.field_description.
  destruct m as [[s|]|]; [|intros; simplify_eq..].
  destruct (len s <=? 10000) eqn:H2; intros; simplify_eq. lia.
Qed.

Lemma update_field_status m st s :
  TaskUpdateRequest.field_status m = Some st → st = Some s →
  s ∈ update_statuses.
Proof.
  unfold TaskUpdateRequest.field_status, TaskUpdateRequest.validate_status.
  unfold update_statuses.
  destruct m as [[s0|]|]; [|intros; simplify_eq..].
  case_bool_decide as Hin; intros; by simplify_eq.
Qed.

Lemma update_field_priority m pr p :
  TaskUpdateRequest.field_priority m = Some pr → pr = Some p →
  p ∈ priorities.
Proof.
  unfold TaskUpdateRequest.field_priority,
    TaskUpdateRequest.validate_priority.
  unfold priorities.
  destruct m as [[s|]|]; [|intros; simplify_eq..].
  case_bool_decide as Hin; intros; by simplify_eq.
Qed.

(** X12. A body that the update schema accepts gives a request whose title,
    if any, is trimmed, not empty and at most 500 characters long, whose
    description, if any, is at most 10000 characters long, whose status,
    if any, is pending, in-progress or completed, and whose priority, if
    any, is low, medium or high; the two checks that
    [TaskService.update_task] repeats never reject such a request. *)
Theorem update_schema_guarantees (body : json) (req : TaskUpdateRequest.t) :
  TaskUpdateRequest.model_validate body = Valid req →
  (∀ s, TaskUpdateRequest.title req = Some s → trimmed_within 500 s)
  ∧ (∀ d, TaskUpdateRequest.description req = Some d → len d ≤ 10000)
  ∧ (∀ s, TaskUpdateRequest.status req = Some s → s ∈ update_statuses)
  ∧ (∀ p, TaskUpdateRequest.priority req = Some p → p ∈ priorities)
  ∧ title_blank req = false
  ∧ description_too_long req = false.
Proof.
  unfold TaskUpdateRequest.model_validate.
  destruct (TaskUpdateRequest.field_title _) as [ti|] eqn:Hti;
    destruct (TaskUpdateRequest.field_description _) as [de|] eqn:Hde;
    destruct (TaskUpdateRequest.field_status _) as [st|] eqn:Hst;
    destruct (TaskUpdateRequest.field_priority _) as [pr|] eqn:Hpr;
    try done.
  intros [= <-].
  cbn [TaskUpdateRequest.title TaskUpdateRequest.description
       TaskUpdateRequest.status TaskUpdateRequest.priority].
  assert (Htitle : ∀ s, ti = Some s → trimmed_within 500 s)
    by (intros s; by apply update_field_title with (m := body !! "title")).
  assert (Hdesc : ∀ d, de = Some d → len d ≤ 10000)
    by (intros d;
        by apply update_field_description with (m := body !! "description")).
  split_and!.
  - done.
  - done.
  - intros s. by apply update_field_status with (m := body !! "status").
  - intros p. by apply update_field_priority with (m := body !! "priority").
  - unfold title_blank. cbn [TaskUpdateRequest.title]. destruct ti as [s|]; [|done].
    destruct (Htitle s eq_refl) as (Hne & Hid & _). rewrite Hid.
    destruct (len s =? 0) eqn:H0; [|done].
    apply Z.eqb_eq, len_zero in H0. done.
  - unfold description_too_long. cbn [TaskUpdateRequest.description].
    destruct de as [d|]; [|done].
    specialize (Hdesc d eq_refl). apply Z.ltb_ge. lia.
Qed.

Lemma update_schema_guarantees_witness :
  title_blank (TaskUpdateRequest.mk (Some "Milk") None (Some "completed") None)
  = false.
Proof.
  refine (proj1 (proj2 (proj2 (proj2 (proj2
            (update_schema_guarantees
               {[ "title" := Some "  Milk  "; "status" := Some "completed" ]}
               (TaskUpdateRequest.mk (Some "Milk") None (Some "completed")
                  None) _)))))).
  by vm_compute.
Defined.

Lemma tasks_update_task_store user_id task_id req cu now σ :
  snd (tasks.update_task user_id task_id req cu now σ) = σ
  ∨ snd (tasks.update_task user_id task_id req cu now σ)
    = snd (TaskService.update_task user_id task_id req now σ).
Proof.
  unfold tasks.update_task, raise_if, mbind, M_bind.
  case_bool_decide; [by left|]. right. cbn [mret M_ret].
  destruct (TaskService.update_task _ _ _ _ _) as [[[t|]|e] σ']; done.
Qed.

(** X13. The PATCH route cannot soft-delete: whatever the body, a row that
    has status deleted after the request had it, with every other field
    the same, before. *)
Theorem patch_route_never_deletes (user_id : string) (task_id : UUID)
    (body : json) (current_user : User.t) (now : datetime) (σ : Store)
    k t :
  rows (snd (tasks.patch_route user_id task_id body current_user now σ))
    !! k = Some t →
  Task.status t = "deleted" →
  rows σ !! k = Some t.
Proof.
  unfold tasks.patch_route.
  destruct (TaskUpdateRequest.model_validate body) as [req|fields] eqn:Hv;
    [|done].
  destruct (update_schema_guarantees body req Hv) as (_ & _ & Hst & _).
  destruct (tasks_update_task_store user_id task_id req current_user now σ)
    as [-> | ->]; [done|].
  destruct (update_task_cases user_id task_id req now σ)
    as [->|(k' & t' & Hk' & _ & Hlive & ->)]; [done|].
  destruct (decide (k = k')) as [->|Hne].
  - rewrite list_lookup_insert_eq by (by eapply lookup_lt_Some).
    intros [= <-]. cbn.
    destruct (TaskUpdateRequest.status req) as [s|] eqn:Hs; [|done].
    intros ->. specialize (Hst "deleted" eq_refl).
    unfold update_statuses in Hst.
    repeat (apply elem_of_cons in Hst as [Hst|Hst]; [done|]).
    by apply elem_of_nil in Hst.
  - by rewrite list_lookup_insert_ne.
Qed.

Lemma patch_route_never_deletes_witness :
  rows sample.store !! 1%nat = Some sample.archive.
Proof.
  apply (patch_route_never_deletes "alice" 1%N
           {[ "status" := Some "completed" ]} sample.alice 40 sample.store);
    by vm_compute.
Defined.

(** ** The rate limiter *)

Section rate_limit.
Import RateLimitMiddleware.
Implicit Types (self : RateLimitMiddleware.t) (request : HttpRequest).

(** One request of a user with an entry. *)
Lemma dispatch_run request (current_time factory_time : Z) self c ws :
  startswith "/health" (path request) = false →
  request_counts self !! user_of request = Some (c, ws) →
  let '(c', ws') := if bool_decide (60 < current_time - ws)
                    then (1, current_time) else (c + 1, ws) in
  let outcome := fst (dispatch request current_time factory_time self) in
  let self' := snd (dispatch request current_time factory_time self) in
  outcome = (if bool_decide (requests_per_minute self < c')
             then TooManyRequests (requests_per_minute self) else CallNext)
  ∧ requests_per_minute self' = requests_per_minute self
  ∧ request_counts self' !! user_of request = Some (c', ws').
Proof.
  intros Hpath Hentry. unfold dispatch. rewrite Hpath, Hentry.
  change (default (0, factory_time) (Some (c, ws))) with (c, ws).
  cbv beta iota zeta.
  case_bool_decide as Hwin; cbv beta iota zeta.
  - change (0 + 1) with 1.
    case_bool_decide; cbn [fst snd requests_per_minute request_counts];
      (split_and!; [done..|]).
    + by rewrite lookup_insert_eq.
    + case_bool_decide; [|by rewrite lookup_insert_eq].
      apply map_lookup_filter_Some. rewrite lookup_insert_eq.
      split; [done|]. cbn. lia.
  - case_bool_decide; cbn [fst snd requests_per_minute request_counts];
      (split_and!; [done..|]).
    + by rewrite lookup_insert_eq.
    + case_bool_decide; [|by rewrite lookup_insert_eq].
      apply map_lookup_filter_Some. rewrite lookup_insert_eq.
      split; [done|]. cbn. lia.
Qed.

(** X14. Within one window the limiter forwards the requests of a user up to
    the limit and rejects every later one: with [c] requests counted in
    a window started at [ws], the i-th further request of that user
    arriving within 60 seconds of [ws] is forwarded exactly when
    [c + i] does not exceed the limit (rejected requests are counted
    too), and after [n] such requests the count is [c + n]. *)
Theorem limiter_forwards_up_to_limit
    (reqs : list (HttpRequest * Z * Z)) self (user : string) (c ws : Z) :
  request_counts self !! user = Some (c, ws) →
  Forall (in_window user ws) reqs →
  fst (dispatch_each reqs self)
  = imap (λ i _, if bool_decide (c + Z.of_nat i + 1
                                 ≤ requests_per_minute self)
                 then CallNext
                 else TooManyRequests (requests_per_minute self)) reqs
  ∧ request_counts (snd (dispatch_each reqs self)) !! user
    = Some (c + Z.of_nat (length reqs), ws).
Proof.
  intros Hentry Hall. revert self c Hentry.
  induction Hall as [|[[request ct] ft] reqs (Hpath & Huser & Hwin) _ IH];
    intros self c Hentry.
  { cbn. split; [done|]. rewrite Hentry. do 2 f_equal. lia. }
  cbn [dispatch_each]. cbn [fst snd] in *. subst user.
  pose proof (dispatch_run request ct ft self c ws Hpath Hentry) as Hrun.
  rewrite bool_decide_eq_false_2 in Hrun by lia.
  destruct Hrun as (Hout & Hlimit & Hentry').
  destruct (dispatch request ct ft self) as [outcome self'].
  cbn [fst snd] in *.
  destruct (IH self' (c + 1) Hentry') as (IHout & IHentry).
  destruct (dispatch_each reqs self') as [outcomes self''].
  cbn [fst snd length] in *. split.
  - rewrite imap_cons, IHout, Hout, Hlimit. f_equal.
    + repeat case_bool_decide; try done; lia.
    + apply imap_ext. intros i x _. cbn.
      replace (c + 1 + Z.of_nat i + 1) with (c + Z.of_nat (S i) + 1) by lia.
      done.
  - rewrite IHentry. do 2 f_equal. lia.
Qed.

(** X15. A user who used up the limit is rejected until the window is over
    and forwarded by the first request that arrives more than 60 seconds
    after the window started, which starts a new window with a count of
    one. *)
Theorem limiter_readmits_after_window request (current_time factory_time : Z)
    self (c ws : Z) :
  startswith "/health" (path request) = false →
  request_counts self !! user_of request = Some (c, ws) →
  requests_per_minute self ≤ c → 1 ≤ requests_per_minute self →
  let out := dispatch request current_time factory_time self in
  (current_time - ws ≤ 60 →
   fst out = TooManyRequests (requests_per_minute self)
   ∧ request_counts (snd out) !! user_of request = Some (c + 1, ws))
  ∧ (60 < current_time - ws →
     fst out = CallNext
     ∧ request_counts (snd out) !! user_of request = Some (1, current_time)).
Proof.
  intros Hpath Hentry Hfull Hlimit out. subst out.
  pose proof (dispatch_run request current_time factory_time self c ws
                Hpath Hentry) as Hrun.
  split; intros Hwin.
  - rewrite bool_decide_eq_false_2 in Hrun by lia.
    destruct Hrun as (-> & _ & ->).
    by rewrite bool_decide_eq_true_2 by lia.
  - rewrite bool_decide_eq_true_2 in Hrun by lia.
    destruct Hrun as (-> & _ & ->).
    by rewrite bool_decide_eq_false_2 by lia.
Qed.

(** X16. A request does not touch the entries of other users, except that
    the clean-up may remove an entry whose window started more than 120
    seconds ago. *)
Theorem limiter_other_users request (current_time factory_time : Z) self
    (other : string) :
  other ≠ user_of request →
  let counts' :=
    request_counts (snd (dispatch request current_time factory_time self)) in
  counts' !! other = request_counts self !! other
  ∨ (counts' !! other = None
     ∧ ∃ c ws, request_counts self !! other = Some (c, ws)
               ∧ 120 < current_time - ws).
Proof.
  intros Hne counts'. subst counts'. unfold dispatch.
  destruct (startswith "/health" (path request)); [by left|].
  destruct (default (0, factory_time) (request_counts self !! _))
    as [c ws].
  destruct (if bool_decide (60 < current_time - ws)
            then (0, current_time) else (c, ws)) as [c' ws'].
  cbn zeta. case_bool_decide; cbn [snd request_counts].
  { left. by rewrite lookup_insert_ne. }
  case_bool_decide; [|left; by rewrite lookup_insert_ne].
  unfold _cleanup_old_entries.
  destruct (request_counts self !! other) as [[co wo]|] eqn:Hother.
  - destruct (decide (120 < current_time - wo)) as [Hold|Hyoung].
    + right. split; [|eauto].
      apply map_lookup_filter_None. right. intros x.
      rewrite lookup_insert_ne, Hother by done. intros [= <-]. cbn. tauto.
    + left. apply map_lookup_filter_Some.
      rewrite lookup_insert_ne by done. done.
  - left. apply map_lookup_filter_None. left.
    by rewrite lookup_insert_ne.
Qed.

End rate_limit.

Lemma limiter_forwards_up_to_limit_witness :
  fst (dispatch_each
         [(sample_limiter.alice_tasks, 1010, 1010);
          (sample_limiter.alice_tasks, 1020, 1020);
          (sample_limiter.alice_tasks, 1030, 1030)]
         sample_limiter.limiter)
  = [RateLimitMiddleware.CallNext;
     RateLimitMiddleware.TooManyRequests 2;
     RateLimitMiddleware.TooManyRequests 2].
Proof.
  refine (proj1 (limiter_forwards_up_to_limit
                   [(sample_limiter.alice_tasks, 1010, 1010);
                    (sample_limiter.alice_tasks, 1020, 1020);
                    (sample_limiter.alice_tasks, 1030, 1030)]
                   sample_limiter.limiter "alice" 1 1000 _ _)).
  - by vm_compute.
  - repeat constructor; cbn; lia.
Defined.

Lemma limiter_readmits_after_window_witness :
  fst (RateLimitMiddleware.dispatch sample_limiter.alice_tasks 1061 1061
         sample_limiter.full)
  = RateLimitMiddleware.CallNext
  ∧ RateLimitMiddleware.request_counts
      (snd (RateLimitMiddleware.dispatch sample_limiter.alice_tasks 1061 1061
              sample_limiter.full))
    !! "alice" = Some (1, 1061).
Proof.
  refine (proj2 (limiter_readmits_after_window sample_limiter.alice_tasks
                   1061 1061 sample_limiter.full 2 1000 _ _ _ _) _).
  - reflexivity.
  - by vm_compute.
  - cbn. lia.
  - cbn. lia.
  - lia.
Defined.

Lemma limiter_other_users_witness :
  RateLimitMiddleware.request_counts
    (snd (RateLimitMiddleware.dispatch sample_limiter.alice_tasks 1010 1010
            sample_limiter.limiter)) !! "bob"
  = Some (5, 100).
Proof.
  destruct (limiter_other_users sample_limiter.alice_tasks 1010 1010
              sample_limiter.limiter "bob") as [H|[H _]].
  - by_compute.
  - rewrite H. by vm_compute.
  - exfalso. revert H. by vm_compute.
Defined.

(** ** The command-line todo list *)

Section cli_facts.
Import cli.
Implicit Types (store : JSONStore.t) (task : Task.t).

Lemma save_tasks store :
  JSONStore._tasks (JSONStore._save_to_file store) = JSONStore._tasks store.
Proof. unfold JSONStore._save_to_file. by destruct (JSONStore.writable store). Qed.

Lemma save_next_id store :
  JSONStore._next_id (JSONStore._save_to_file store)
  = JSONStore._next_id store.
Proof. unfold JSONStore._save_to_file. by destruct (JSONStore.writable store). Qed.

Lemma save_writable store :
  JSONStore.writable (JSONStore._save_to_file store)
  = JSONStore.writable store.
Proof.
  unfold JSONStore._save_to_file.
  by destruct (JSONStore.writable store) eqn:Hw.
Qed.

Lemma strip_empty : strip "" = "".
Proof. reflexivity. Qed.

(** [add_task] with a title that is not blank. *)
Lemma cli_add_task_run (title description : string) store :
  strip title ≠ "" →
  TaskService.add_task title description store
  = (Return (JSONStore._next_id store),
     JSONStore._save_to_file
       (JSONStore.mk
          (<[JSONStore._next_id store :=
               Task.mk (JSONStore._next_id store) title (Some description)
                 "pending"]> (JSONStore._tasks store))
          (JSONStore._next_id store + 1) (JSONStore.file store)
          (JSONStore.writable store))).
Proof.
  intros Hstrip.
  assert (Htitle : title ≠ "") by (intros ->; by apply Hstrip).
  unfold TaskService.add_task, JSONStore.create_task, Task.__init__,
    Task.validate.
  cbn [Task.d_title Task.d_description Task.d_status Task.title Task.status
       JSONStore._tasks JSONStore._next_id JSONStore.file JSONStore.writable].
  rewrite !bool_decide_eq_false_2 by done. cbn [orb].
  change (default (Some "") (Some (Some description)))
    with (Some description).
  change (default "pending" (Some "pending")) with "pending".
  by rewrite bool_decide_eq_false_2
    by (intros H; apply H, list_elem_of_here).
Qed.

(** [add_task] with a blank title. *)
Lemma cli_add_task_blank (title description : string) store :
  strip title = "" →
  TaskService.add_task title description store
  = (ValueError "Title must not be empty or contain only whitespace", store).
Proof.
  intros Hstrip. unfold TaskService.add_task.
  rewrite (bool_decide_eq_true_2 (strip title = "")) by done.
  by rewrite orb_true_r.
Qed.

Lemma cli_update_task_run (task_id : Z) (title description : option string)
    store task :
  JSONStore._tasks store !! task_id = Some task →
  TaskService.update_task task_id title description store
  = (true,
     JSONStore._save_to_file
       (JSONStore.mk
          (<[task_id :=
               Task.mk (Task.id task) (default (Task.title task) title)
                 (default (Task.description task) (Some <$> description))
                 (Task.status task)]> (JSONStore._tasks store))
          (JSONStore._next_id store) (JSONStore.file store)
          (JSONStore.writable store))).
Proof.
  intros Hk.
  unfold TaskService.update_task, JSONStore.get_task, JSONStore.update_task.
  by rewrite Hk.
Qed.

Lemma cli_toggle_run (task_id : Z) store task :
  JSONStore._tasks store !! task_id = Some task →
  TaskService.toggle_task_status task_id store
  = (true,
     JSONStore._save_to_file
       (JSONStore.mk
          (<[task_id :=
               Task.mk (Task.id task) (Task.title task)
                 (Task.description task)
                 (if bool_decide (Task.status task = "pending")
                  then "completed" else "pending")]>
             (JSONStore._tasks store))
          (JSONStore._next_id store) (JSONStore.file store)
          (JSONStore.writable store))).
Proof.
  intros Hk.
  unfold TaskService.toggle_task_status, JSONStore.get_task,
    JSONStore.update_task.
  by rewrite Hk.
Qed.

Lemma cli_absent_run (task_id : Z) (title description : option string) store :
  JSONStore._tasks store !! task_id = None →
  TaskService.update_task task_id title description store = (false, store)
  ∧ TaskService.delete_task task_id store = (false, store)
  ∧ TaskService.toggle_task_status task_id store = (false, store).
Proof.
  intros Hk.
  unfold TaskService.update_task, TaskService.delete_task,
    TaskService.toggle_task_status, JSONStore.get_task,
    JSONStore.delete_task.
  by rewrite Hk.
Qed.

Lemma cli_delete_run (task_id : Z) store task :
  JSONStore._tasks store !! task_id = Some task →
  TaskService.delete_task task_id store
  = (true,
     JSONStore._save_to_file
       (JSONStore.mk (delete task_id (JSONStore._tasks store))
          (JSONStore._next_id store) (JSONStore.file store)
          (JSONStore.writable store))).
Proof.
  intros Hk. unfold TaskService.delete_task, JSONStore.delete_task.
  by rewrite Hk.
Qed.

(** No command lowers the counter, and none stores an id at or above
    it. *)
Lemma exec_counter (c : Command) store :
  JSONStore._next_id store ≤ JSONStore._next_id (exec c store)
  ∧ (ids_below store → ids_below (exec c store)).
Proof.
  destruct c as [title description|task_id title description|task_id
                |task_id]; cbn [exec].
  - destruct (decide (strip title = "")) as [Hb|Hb].
    { by rewrite cli_add_task_blank. }
    rewrite cli_add_task_run by done. cbn [snd].
    rewrite save_next_id. cbn. split; [lia|].
    intros Hbelow k. unfold ids_below in *.
    rewrite save_tasks, save_next_id. cbn.
    destruct (decide (k = JSONStore._next_id store)) as [->|Hne]; [lia|].
    rewrite lookup_insert_ne by done. intros Hk%Hbelow. lia.
  - destruct (JSONStore._tasks store !! task_id) as [task|] eqn:Hk.
    2:{ by destruct (cli_absent_run task_id title description store Hk)
          as (-> & _). }
    rewrite (cli_update_task_run _ _ _ _ _ Hk). cbn [snd].
    rewrite save_next_id. cbn. split; [lia|].
    intros Hbelow k. unfold ids_below in *.
    rewrite save_tasks, save_next_id. cbn.
    destruct (decide (k = task_id)) as [->|Hne].
    + intros _. apply Hbelow. by rewrite Hk.
    + rewrite lookup_insert_ne by done. apply Hbelow.
  - destruct (JSONStore._tasks store !! task_id) as [task|] eqn:Hk.
    2:{ by destruct (cli_absent_run task_id None None store Hk)
          as (_ & -> & _). }
    rewrite (cli_delete_run _ _ _ Hk). cbn [snd].
    rewrite save_next_id. cbn. split; [lia|].
    intros Hbelow k. unfold ids_below in *.
    rewrite save_tasks, save_next_id. cbn.
    intros [x [_ Hx]%lookup_delete_Some]. apply Hbelow. by rewrite Hx.
  - destruct (JSONStore._tasks store !! task_id) as [task|] eqn:Hk.
    2:{ by destruct (cli_absent_run task_id None None store Hk)
          as (_ & _ & ->). }
    rewrite (cli_toggle_run _ _ _ Hk). cbn [snd].
    rewrite save_next_id. cbn. split; [lia|].
    intros Hbelow k. unfold ids_below in *.
    rewrite save_tasks, save_next_id. cbn.
    destruct (decide (k = task_id)) as [->|Hne].
    + intros _. apply Hbelow. by rewrite Hk.
    + rewrite lookup_insert_ne by done. apply Hbelow.
Qed.

Lemma exec_all_counter (cs : list Command) store :
  JSONStore._next_id store ≤ JSONStore._next_id (exec_all cs store)
  ∧ (ids_below store → ids_below (exec_all cs store)).
Proof.
  revert store. induction cs as [|c cs IH]; intros store; [done|].
  change (exec_all (c :: cs) store) with (exec_all cs (exec c store)).
  destruct (exec_counter c store) as [H1 H2].
  destruct (IH (exec c store)) as [H3 H4]. split; [lia|auto].
Qed.

End cli_facts.

Section cli_theorems.
Import cli.
Implicit Types (store : JSONStore.t) (task : Task.t).

Lemma add_task_returns title description store id :
  fst (TaskService.add_task title description store) = Return id →
  id = JSONStore._next_id store
  ∧ JSONStore._next_id (snd (TaskService.add_task title description store))
    = JSONStore._next_id store + 1.
Proof.
  destruct (decide (strip title = "")) as [Hb|Hb].
  { by rewrite cli_add_task_blank. }
  rewrite cli_add_task_run by done. cbn [fst snd]. rewrite save_next_id.
  by intros [= <-].
Qed.

(** X17. The ids that [add_task] hands out grow strictly: whatever is
    added, updated, deleted or toggled between two successful adds, the
    later one returns the larger id, so the id of a deleted task is not
    given to a new one. *)
Theorem added_ids_increase (store : JSONStore.t) (cs : list Command)
    (title1 description1 title2 description2 : string) (id1 id2 : Z) :
  fst (TaskService.add_task title1 description1 store) = Return id1 →
  fst (TaskService.add_task title2 description2
         (exec_all cs (snd (TaskService.add_task title1 description1 store))))
  = Return id2 →
  id1 < id2.
Proof.
  intros (-> & Hnext)%add_task_returns (-> & _)%add_task_returns.
  pose proof (proj1 (exec_all_counter cs
    (snd (TaskService.add_task title1 description1 store)))). lia.
Qed.

Lemma added_ids_increase_witness :
  1 < 2.
Proof.
  apply (added_ids_increase (JSONStore.__init__ JSONStore.NoFile true)
           [Delete 1] "first" "" "second" "" 1 2); by vm_compute.
Defined.

(** X18. In a store that started from no file, adding a task never replaces
    or changes a task that is already there. *)
Theorem add_never_overwrites (cs : list Command) (w : bool)
    (title description : string) (k : Z) task :
  let store := exec_all cs (JSONStore.__init__ JSONStore.NoFile w) in
  JSONStore.get_task k store = Some task →
  JSONStore.get_task k (snd (TaskService.add_task title description store))
  = Some task.
Proof.
  intros store Hk.
  assert (Hbelow : ids_below store).
  { apply exec_all_counter. intros k' [x Hx]. by cbn in Hx. }
  destruct (decide (strip title = "")) as [Hb|Hb].
  { by rewrite cli_add_task_blank. }
  rewrite cli_add_task_run by done. unfold JSONStore.get_task in *.
  cbn [snd]. rewrite save_tasks. cbn [JSONStore._tasks].
  rewrite lookup_insert_ne; [done|].
  intros Heq. specialize (Hbelow k). rewrite Hk in Hbelow.
  specialize (Hbelow (mk_is_Some _ _ eq_refl)). lia.
Qed.

Lemma add_never_overwrites_witness :
  JSONStore.get_task 1
    (snd (TaskService.add_task "second" ""
            (exec_all [Add "first" "note"]
               (JSONStore.__init__ JSONStore.NoFile true))))
  = Some (Task.mk 1 "first" (Some "note") "pending").
Proof.
  apply (add_never_overwrites [Add "first" "note"] true "second" "" 1).
  by vm_compute.
Defined.

(** X19. Toggling a pending task makes it completed and toggling any other
    task makes it pending, the other fields staying as they are; so for
    a task that is pending or completed, toggling twice gives back the
    task. *)
Theorem toggle_twice_restores (store : JSONStore.t) (task_id : Z) task :
  JSONStore._tasks store !! task_id = Some task →
  let once := snd (TaskService.toggle_task_status task_id store) in
  let twice := snd (TaskService.toggle_task_status task_id once) in
  JSONStore.get_task task_id once
  = Some (Task.mk (Task.id task) (Task.title task) (Task.description task)
            (if bool_decide (Task.status task = "pending")
             then "completed" else "pending"))
  ∧ (Task.status task ∈ ["pending"; "completed"] →
     JSONStore.get_task task_id twice = Some task).
Proof.
  intros Hk once twice.
  assert (Honce : JSONStore.get_task task_id once
    = Some (Task.mk (Task.id task) (Task.title task) (Task.description task)
              (if bool_decide (Task.status task = "pending")
               then "completed" else "pending"))).
  { subst once. rewrite (cli_toggle_run _ _ _ Hk). cbn [snd].
    unfold JSONStore.get_task. rewrite save_tasks. cbn.
    by rewrite lookup_insert_eq. }
  split; [done|]. intros Hst. subst twice.
  rewrite (cli_toggle_run _ _ _ Honce). cbn [snd].
  unfold JSONStore.get_task. rewrite save_tasks. cbn.
  rewrite lookup_insert_eq. destruct task as [i ti de st]. cbn in *.
  do 2 f_equal.
  apply elem_of_cons in Hst as [->|Hst]; [done|].
  apply list_elem_of_singleton in Hst as ->. done.
Qed.

Lemma toggle_twice_restores_witness :
  JSONStore.get_task 1
    (snd (TaskService.toggle_task_status 1
            (exec_all [Add "first" "note"]
               (JSONStore.__init__ JSONStore.NoFile true))))
  = Some (Task.mk 1 "first" (Some "note") "completed").
Proof.
  refine (proj1 (toggle_twice_restores
                   (exec_all [Add "first" "note"]
                      (JSONStore.__init__ JSONStore.NoFile true))
                   1 (Task.mk 1 "first" (Some "note") "pending") _)).
  by vm_compute.
Defined.

End cli_theorems.

Section cli_persistence.
Import cli.
Implicit Types (store : JSONStore.t) (task : Task.t).




Lemma from_to_dict_blank task :
  strip (Task.title task) = "" →
  JSONStore.loaded (Task.from_dict (Task.to_dict task)) = None.
Proof.
  intros Hb. destruct task as [i ti de st]. cbn in Hb.
  unfold Task.from_dict, Task.to_dict, Task.__init__, Task.validate. cbn.
  rewrite (bool_decide_eq_true_2 (strip ti = "")) by done.
  by rewrite orb_true_r.
Qed.









(** X21. An update that sets a blank title is accepted and saved, and the
    file it leaves cannot be loaded: the next start finds no task at
    all, with the counter back at 1. *)
Theorem blank_title_update_empties_restart (store : JSONStore.t)
    (task_id : Z) (title : string) (description : option string) task :
  JSONStore._tasks store !! task_id = Some task →
  JSONStore.writable store = true →
  strip title = "" →
  let out := TaskService.update_task task_id (Some title) description store in
  fst out = true
  ∧ JSONStore._tasks (reopen (snd out)) = ∅
  ∧ JSONStore._next_id (reopen (snd out)) = 1.
Proof.
  intros Hk Hw Hb out. subst out.
  rewrite (cli_update_task_run _ _ _ _ _ Hk). cbn [fst snd].
  split; [done|].
  unfold reopen, JSONStore._save_to_file, JSONStore.__init__. cbn.
  rewrite Hw. cbn [JSONStore.file JSONStore.writable].
  unfold JSONStore._load_from_file. rewrite bool_decide_eq_false_2; [done|].
  intros Hall.
  specialize (Hall task_id
    (Task.to_dict (Task.mk (Task.id task) title
       (default (Task.description task) (Some <$> description))
       (Task.status task)))).
  rewrite lookup_fmap, lookup_insert_eq in Hall.
  specialize (Hall eq_refl).
  rewrite from_to_dict_blank in Hall by done. by destruct Hall.
Qed.

Lemma blank_title_update_empties_restart_witness :
  JSONStore._tasks
    (reopen (snd (TaskService.update_task 1 (Some "  ") None
                    (exec_all [Add "first" "note"; Add "second" ""]
                       (JSONStore.__init__ JSONStore.NoFile true)))))
  = ∅.
Proof.
  refine (proj1 (proj2 (blank_title_update_empties_restart
                          (exec_all [Add "first" "note"; Add "second" ""]
                             (JSONStore.__init__ JSONStore.NoFile true))
                          1 "  " None
                          (Task.mk 1 "first" (Some "note") "pending")
                          _ _ _))).
  - by vm_compute.
  - reflexivity.
  - reflexivity.
Defined.

End cli_persistence.

(** ** [core/validation.py] *)

Lemma substring_prefix (n : nat) (s : string) :
  ∃ rest, s = String.substring 0 n s +:+ rest.
Proof.
  revert n. induction s as [|c s IH]; intros [|n]; cbn.
  - by exists "".
  - by exists "".
  - by exists (String c s).
  - destruct (IH n) as [rest Hrest]. exists rest.
    change (String c s = String c (String.substring 0 n s +:+ rest)).
    by rewrite <- Hrest.
Qed.

Lemma append_empty_r (s : string) : s +:+ "" = s.
Proof.
  induction s as [|c s IH]; [done|].
  change (String c (s +:+ "") = String c s). by rewrite IH.
Qed.

Lemma substring_length (n : nat) (s : string) :
  String.length (String.substring 0 n s) = (n `min` String.length s)%nat.
Proof.
  revert n. induction s as [|c s IH]; intros [|n]; cbn; try done.
  by rewrite IH.
Qed.

(** X22. With a positive maximum length, [sanitize_string] returns nothing
    exactly for an absent or blank value, and otherwise a string that
    is not empty, is at most the maximum long and is the beginning of
    the trimmed value. *)
Theorem sanitize_string_bounds (value : string) (m : Z) :
  0 < m →
  match validation.sanitize_string (Some value) (Some m) with
  | None => strip value = ""
  | Some r => r ≠ "" ∧ len r ≤ m ∧ ∃ rest, strip value = r +:+ rest
  end.
Proof.
  intros Hm. unfold validation.sanitize_string.
  case_bool_decide as Hb; [done|].
  rewrite (proj2 (Z.eqb_neq m 0)) by lia. cbn [negb andb].
  destruct (m <? len (strip value)) eqn:Hlong.
  - apply Z.ltb_lt in Hlong. unfold validation.slice_to.
    rewrite (proj2 (Z.ltb_ge m 0)) by lia.
    split_and!.
    + destruct (strip value) as [|c s]; [done|].
      destruct (Z.to_nat m) as [|n] eqn:Hn; [lia|]. done.
    + unfold len in *. rewrite substring_length. lia.
    + apply substring_prefix.
  - apply Z.ltb_ge in Hlong. split_and!; [done..|].
    exists "". by rewrite append_empty_r.
Qed.

Lemma sanitize_string_bounds_witness :
  match validation.sanitize_string (Some "  Padded  ") (Some 3) with
  | None => strip "  Padded  " = ""
  | Some r => r ≠ "" ∧ len r ≤ 3 ∧ ∃ rest, strip "  Padded  " = r +:+ rest
  end.
Proof. apply (sanitize_string_bounds "  Padded  " 3). lia. Defined.

(** X23. For a title of 1 to 500 characters [sanitize_task_title] and the
    title field of the create schema agree: both reject a blank title
    and both return the trimmed title otherwise. For a longer title
    they differ: the schema rejects it, [sanitize_task_title] cuts it. *)
Theorem sanitize_task_title_and_schema (title : string) :
  (1 ≤ len title ≤ 500 →
   validation.sanitize_task_title title
   = TaskCreateRequest.field_title (Some (Some title)))
  ∧ (500 < len title →
     TaskCreateRequest.field_title (Some (Some title)) = None
     ∧ (strip title ≠ "" →
        ∃ r, validation.sanitize_task_title title = Some r ∧ len r ≤ 500)).
Proof.
  pose proof (sanitize_string_bounds title 500 ltac:(lia)) as Hb.
  destruct (strip_idempotent_and_shorter title) as [_ Hshort].
  unfold validation.sanitize_task_title, TaskCreateRequest.field_title,
    TaskCreateRequest.validate_title. split.
  - intros [H1 H2].
    rewrite (proj2 (Z.leb_le 1 _)) by done.
    rewrite (proj2 (Z.leb_le _ 500)) by done. cbn [andb].
    unfold validation.sanitize_string in *.
    case_bool_decide as Hblank; [done|].
    cbn [negb andb Z.eqb].
    rewrite (proj2 (Z.ltb_ge 500 _)) by lia.
    by rewrite bool_decide_eq_false_2.
  - intros Hlong. split.
    + rewrite (proj2 (Z.leb_gt _ 500)) by done. by rewrite andb_false_r.
    + intros Hne.
      destruct (validation.sanitize_string (Some title) (Some 500))
        as [r|]; [|done].
      destruct Hb as (Hr & Hlen & _). exists r.
      by rewrite bool_decide_eq_false_2.
Qed.

Lemma sanitize_task_title_and_schema_witness :
  validation.sanitize_task_title "  Padded  "
  = TaskCreateRequest.field_title (Some (Some "  Padded  ")).
Proof.
  apply (proj1 (sanitize_task_title_and_schema "  Padded  ")).
  split; by vm_compute.
Defined.

Lemma re_match_id_spec (s : string) :
  validation.re_match_id s = true ↔
  ∃ body, body ≠ "" ∧ id_chars body = true
          ∧ (s = body ∨ s = body +:+ String "010"%char "").
Proof.
  induction s as [|c s IH]; cbn [validation.re_match_id].
  { split; [done|]. intros (body & Hne & _ & [<-| H]); [done|].
    destruct body; cbn in H; done. }
  split.
  - intros [Hc Hrest]%andb_true_iff.
    destruct s as [|c' s'].
    { exists (String c ""). cbn. rewrite Hc. split_and!; auto. }
    destruct (decide (c' = "010"%char ∧ s' = "")) as [[-> ->]|Hnl].
    { exists (String c ""). cbn. rewrite Hc. split_and!; auto. }
    assert (Hrec : validation.re_match_id (String c' s') = true).
    { revert Hrest.
      destruct c' as [[] [] [] [] [] [] [] []]; destruct s'; try done;
        by destruct Hnl. }
    apply IH in Hrec as (body & Hne & Hbody & Hs).
    exists (String c body). cbn. rewrite Hc, Hbody.
    split_and!; [done..|]. destruct Hs as [-> | ->]; auto.
  - intros (body & Hne & Hbody & Hs).
    destruct body as [|b body]; [done|]. cbn in Hbody.
    apply andb_true_iff in Hbody as [Hb Hbody].
    assert (c = b) as -> by (destruct Hs as [Hs|Hs]; by inversion Hs).
    rewrite Hb. cbn [andb].
    assert (Hs' : s = body ∨ s = body +:+ String "010"%char "")
      by (destruct Hs as [Hs|Hs]; inversion Hs; auto).
    destruct s as [|c' s']; [done|].
    destruct (decide (c' = "010"%char ∧ s' = "")) as [[-> ->]|Hnl]; [done|].
    assert (Hrec : validation.re_match_id (String c' s') = true).
    { apply IH. exists body. split_and!; [|done..].
      intros ->. destruct Hs' as [?|Hs']; [done|].
      cbn in Hs'. inversion Hs'. by destruct Hnl. }
    revert Hrec.
    destruct c' as [[] [] [] [] [] [] [] []]; destruct s'; try done;
      by destruct Hnl.
Qed.

(** X24. [validate_user_id] accepts exactly the strings of 1 to 255
    characters that consist of letters, digits, underscores and hyphens,
    optionally followed by one newline, which counts towards the
    length. *)
Theorem validate_user_id_accepts (user_id : string) :
  validation.validate_user_id user_id = true ↔
  len user_id ≤ 255
  ∧ ∃ body, body ≠ "" ∧ id_chars body = true
            ∧ (user_id = body ∨ user_id = body +:+ String "010"%char "").
Proof.
  unfold validation.validate_user_id. rewrite <- re_match_id_spec.
  case_bool_decide as He.
  { subst. split; [done|]. by intros [_ ?]. }
  assert (1 ≤ len user_id).
  { unfold len. destruct user_id; [done|]. cbn. lia. }
  rewrite (proj2 (Z.ltb_ge _ 1)) by done. cbn [orb].
  destruct (255 <? len user_id) eqn:Hlong.
  - apply Z.ltb_lt in Hlong. split; [done|]. lia.
  - apply Z.ltb_ge in Hlong. tauto.
Qed.

Lemma validate_user_id_accepts_witness :
  validation.validate_user_id ("user-1" +:+ String "010"%char "") = true.
Proof.
  apply (proj2 (validate_user_id_accepts _)). split; [by vm_compute|].
  exists "user-1". split_and!; [done|reflexivity|by right].
Defined.

(** ** [api/v1/auth.py] *)

Section auth_routes_facts.
Import auth_routes.
Context (BETTER_AUTH_URL : string).













End auth_routes_facts.

